(** * symlink-manager: a shallow embedding of [program.py]

    The program relocates declared home-relative paths into per-storage
    backing directories and leaves a symlink behind ([apply_additions]); the
    removal pass ([apply_removals]) undoes this.

    Layout of the development:
    - [PyStr]   : the [str] methods the program calls;
    - [PyList]  : [sorted(..., key=..., reverse=...)];
    - [PosixPath] : [os.path.join], [os.path.dirname], [os.path.basename];
    - [Fs]      : a tree model of the file system with symlink resolution,
                  and the [os] / [shutil] calls of the program as actions of
                  a state-and-exception monad;
    - [Program] : the functions of [program.py], in source order;
    - [StrAux], [FsAux], [ProgramAux], [TreeAux], [PassAux] : the
                  definitions the statements and proofs need on top of the
                  program (escaping read back, updates of the tree at a
                  canonical path, tasks given by canonical paths);
    - [Scenario], [ExtraAux], [ExtraScenario] : concrete trees and
                  configurations for the examples, and what the further
                  properties need;
    - the theorems: facts about each layer first, then the claims about
                  the program, grouped by the function they are about.

    Characters are 8-bit ([ascii]); a Python [str] is a [string]. *)

From stdpp Require Import gmap strings list fin_maps sorting.
From Stdlib Require Import Strings.Ascii Strings.Byte.

Set Warnings "-register-all".
#[local] Open Scope stdpp_scope.

(** ** Python [str] methods *)

Module PyStr.

(** [c in chars] for a one-character [c]. *)
Fixpoint mem (c : ascii) (chars : string) : bool :=
  match chars with
  | "" => false
  | String d chars' => Ascii.eqb c d || mem c chars'
  end.

(** [s.startswith(p)] *)
Fixpoint startswith (s p : string) {struct p} : bool :=
  match p with
  | "" => true
  | String a p' =>
      match s with
      | "" => false
      | String b s' => Ascii.eqb a b && startswith s' p'
      end
  end.

(** [s.endswith(p)] *)
Fixpoint endswith (s p : string) : bool :=
  String.eqb s p ||
  match s with
  | "" => false
  | String _ s' => endswith s' p
  end.

(** [s[n:]] *)
Fixpoint drop (n : nat) (s : string) : string :=
  match n, s with
  | S k, String _ s' => drop k s'
  | _, _ => s
  end.

(** [old in s] *)
Fixpoint contains (old s : string) : bool :=
  startswith s old ||
  match s with
  | "" => false
  | String _ s' => contains old s'
  end.

(** [s.replace(old, new)] for a non-empty [old]: scan from the left; at a
    position where [old] starts, emit [new] and skip the rest of the
    occurrence ([skip] counts the characters still to be skipped). *)
Fixpoint replace_from (old new : string) (skip : nat) (s : string) : string :=
  match s with
  | "" => ""
  | String c s' =>
      match skip with
      | S k => replace_from old new k s'
      | O =>
          if startswith s old
          then new +:+ replace_from old new (String.length old - 1) s'
          else String c (replace_from old new 0 s')
      end
  end.

(** [s.replace("", new)]: [new] before every character and at the end. *)
Fixpoint replace_empty (new s : string) : string :=
  new +:+ match s with
          | "" => ""
          | String c s' => String c (replace_empty new s')
          end.

(** [s.replace(old, new)] *)
Definition replace (old new s : string) : string :=
  match old with
  | "" => replace_empty new s
  | _ => replace_from old new 0 s
  end.

(** [s.replace(old, new, 1)]: only the leftmost occurrence. *)
Fixpoint replace_first (old new s : string) : string :=
  if startswith s old then new +:+ drop (String.length old) s
  else match s with
       | "" => ""
       | String c s' => String c (replace_first old new s')
       end.

(** [s.rstrip(chars)] *)
Fixpoint rstrip (chars s : string) : string :=
  match s with
  | "" => ""
  | String c s' =>
      match rstrip chars s' with
      | "" => if mem c chars then "" else String c ""
      | r => String c r
      end
  end.

(** [c.isspace()] on the code points below 256. *)
Definition isspace (c : ascii) : bool :=
  let n := nat_of_ascii c in
  ((9 <=? n) && (n <=? 13)) || ((28 <=? n) && (n <=? 32))
  || (n =? 133) || (n =? 160).

(** [s.lstrip()] *)
Fixpoint lstrip (s : string) : string :=
  match s with
  | "" => ""
  | String c s' => if isspace c then lstrip s' else s
  end.

(** [s.rstrip()] *)
Fixpoint rstrip_space (s : string) : string :=
  match s with
  | "" => ""
  | String c s' =>
      match rstrip_space s' with
      | "" => if isspace c then "" else String c ""
      | r => String c r
      end
  end.

(** [s.strip()] *)
Definition strip (s : string) : string := rstrip_space (lstrip s).

(** [c.lower()] on the code points below 256: [A-Z] and the accented
    capitals 192..222 except the multiplication sign 215. *)
Definition lower_char (c : ascii) : ascii :=
  let n := nat_of_ascii c in
  if ((65 <=? n) && (n <=? 90))
     || ((192 <=? n) && (n <=? 222) && negb (n =? 215))
  then ascii_of_nat (n + 32) else c.

(** [s.lower()] *)
Fixpoint lower (s : string) : string :=
  match s with
  | "" => ""
  | String c s' => String (lower_char c) (lower s')
  end.

(** [s.rfind("/") + 1] computed as the length of the part up to and
    including the last separator. *)
Fixpoint split_last_sep (s : string) : string * string :=
  match s with
  | "" => ("", "")
  | String c s' =>
      let '(h, t) := split_last_sep s' in
      if contains "/" s then
        if contains "/" s' then (String c h, t) else (String c "", s')
      else ("", s)
  end.

(** [s.split("/")] *)
Fixpoint split_sep (s : string) : list string :=
  match s with
  | "" => [""]
  | String c s' =>
      if Ascii.eqb c "/" then "" :: split_sep s'
      else match split_sep s' with
           | [] => [String c ""]
           | w :: ws => String c w :: ws
           end
  end.

End PyStr.


(** ** Python [sorted] *)

Module PyList.

Section Sorted.
Context {A : Type} (key : A → nat).

(** Insertion in front of the first element with a key that is not
    smaller: an element never overtakes one with the same key. *)
Fixpoint insert_by (x : A) (l : list A) : list A :=
  match l with
  | [] => [x]
  | y :: l' => if key x <=? key y then x :: y :: l' else y :: insert_by x l'
  end.

(** A stable sort by ascending key. *)
Fixpoint sort_by (l : list A) : list A :=
  match l with
  | [] => []
  | x :: l' => insert_by x (sort_by l')
  end.

(** [sorted(l, key=key, reverse=reverse)].  With [reverse=True] Python
    sorts the reversed list and reverses the result, which keeps the
    input order among elements with equal keys. *)
Definition sorted (reverse : bool) (l : list A) : list A :=
  if reverse then list.reverse (sort_by (list.reverse l)) else sort_by l.
End Sorted.

End PyList.

(** ** [os.path] string functions (posixpath) *)

Module PosixPath.
Import PyStr.

(** [os.path.join(a, b)] *)
Definition join (a b : string) : string :=
  if startswith b "/" then b
  else if String.eqb a "" || endswith a "/" then a +:+ b
  else a +:+ "/" +:+ b.

(** [head == "/" * len(head)] *)
Fixpoint all_sep (s : string) : bool :=
  match s with
  | "" => true
  | String c s' => Ascii.eqb c "/" && all_sep s'
  end.

(** [os.path.split(p)] *)
Definition split (p : string) : string * string :=
  let '(head, tail) := split_last_sep p in
  (if negb (String.eqb head "") && negb (all_sep head)
   then rstrip "/" head else head, tail).

(** [os.path.dirname(p)] *)
Definition dirname (p : string) : string := (split p).1.

(** [os.path.basename(p)] *)
Definition basename (p : string) : string := (split p).2.

End PosixPath.

(** ** The lines the program prints

    One constructor per [print] call of [program.py]; the arguments are the
    values interpolated into the f-string. *)

Inductive message :=
| PromptCrossDevice (src dst : string)      (* confirm_move: "<src> -> <dst> is on another device. move? (Y/N)" *)
| WarnFolderRequired (src : string)         (* handle_path_conflict: "<src> is a file, a folder is required. skipping." *)
| WarnFileRequired (src : string)           (* handle_path_conflict: "<src> is a folder, a file is required. skipping." *)
| InfoAlreadyConfigured (src : string)      (* "INFO: <src> is already configured correctly. skipping." *)
| ErrorWrongSymlink (src : string)          (* "ERROR: <src> is a wrong symlink. skipping." *)
| ErrorDstExists (dst src : string)         (* "ERROR: <dst> already exists. skipping <src>." *)
| InfoMoveCancelled (src : string)          (* "INFO: the move of <src> was cancelled." *)
| LinkCreated (src dst : string)            (* "link created: <src> -> <dst>" *)
| LinkRemoved (src dst : string)            (* "link removed: <src> -> <dst>" *)
| SkipMoveBack (dst src : string)           (* "skip: the move from <dst> to <src> was cancelled." *)
| StoreDirRemoved (dst : string)            (* "storage folder removed: <dst>" *)
| WarnNotCorrectLink (src : string).        (* "warning: <src> is not a correct link." *)

(** ** The file system and the process around it

    The file system is a tree: a directory maps names to nodes, a symlink
    stores its target string, a regular file stores its bytes.  Moving a
    directory moves the subtree, as [rename(2)] does. *)

Module Fs.
Import PyStr.

Inductive node :=
| File (content : list byte)
| Link (target : string)
| Dir (children : gmap string node).

(** The node at a canonical path (a list of names from the root, crossing
    directories only). *)
Fixpoint tlookup (p : list string) (n : node) : option node :=
  match p with
  | [] => Some n
  | c :: p' =>
      match n with
      | Dir ch => match ch !! c with Some n' => tlookup p' n' | None => None end
      | _ => None
      end
  end.

(** Bind [x] at canonical path [p]; the tree is unchanged when the parent
    of [p] is not a directory of the tree. *)
Fixpoint tinsert (p : list string) (x : node) (n : node) : node :=
  match p with
  | [] => x
  | c :: p' =>
      match n with
      | Dir ch =>
          match p' with
          | [] => Dir (<[c := x]> ch)
          | _ => Dir (alter (tinsert p' x) c ch)
          end
      | _ => n
      end
  end.

(** Unbind canonical path [p] (with everything below it). *)
Fixpoint tdelete (p : list string) (n : node) : node :=
  match p with
  | [] => n
  | c :: p' =>
      match n with
      | Dir ch =>
          match p' with
          | [] => Dir (delete c ch)
          | _ => Dir (alter (tdelete p') c ch)
          end
      | _ => n
      end
  end.

(** *** Exceptions *)

Inductive errno := ELOOP | EINVAL | ENOTEMPTY.

Inductive exn :=
| FileNotFoundError
| FileExistsError
| NotADirectoryError
| IsADirectoryError
| OSError (e : errno)
| ShutilError
| KeyError (key : string)
| TypeError
| EOFError.

(** *** The world: file system, working directory, mount table (the device
    of a path is the device of the longest mount point above it; the root
    is device 0), the lines still to be read from standard input and the
    lines printed so far. *)

Record world := World {
  root : node;
  cwd : list string;
  mounts : list (list string * nat);
  stdin : list string;
  stdout : list message
}.

Definition set_root (r : node) (w : world) : world :=
  World r (cwd w) (mounts w) (stdin w) (stdout w).

(** The world after the lines [msgs] have been printed. *)
Definition say (msgs : list message) (w : world) : world :=
  World (root w) (cwd w) (mounts w) (stdin w) (stdout w ++ msgs).

(** *** State and exception monad *)

Inductive result (A : Type) :=
| Ok (a : A)
| Raise (e : exn).
Arguments Ok {A} a.
Arguments Raise {A} e.

Definition M (A : Type) : Type := world → world * result A.

Definition ret {A} (a : A) : M A := λ w, (w, Ok a).

Definition raise {A} (e : exn) : M A := λ w, (w, Raise e).

Definition bind {A B} (m : M A) (k : A → M B) : M B :=
  λ w, match m w with
       | (w', Ok a) => k a w'
       | (w', Raise e) => (w', Raise e)
       end.

#[global] Instance M_ret : MRet M := @ret.
#[global] Instance M_bind : MBind M := λ A B k m, bind m k.

Definition gets {A} (f : world → A) : M A := λ w, (w, Ok (f w)).

(** [try: m  except <exceptions accepted by handles>: h] *)
Definition try_except {A} (m : M A) (handles : exn → bool) (h : M A) : M A :=
  λ w, match m w with
       | (w', Raise e) => if handles e then h w' else (w', Raise e)
       | r => r
       end.

Definition is_OSError (e : exn) : bool :=
  match e with
  | FileNotFoundError | FileExistsError | NotADirectoryError
  | IsADirectoryError | OSError _ => true
  | _ => false
  end.

Definition is_FileExistsError (e : exn) : bool :=
  match e with FileExistsError => true | _ => false end.

(** [print(msg)] *)
Definition print (msg : message) : M unit := λ w, (say [msg] w, Ok tt).

(** [input()] *)
Definition input : M string :=
  λ w, match stdin w with
       | [] => (w, Raise EOFError)
       | line :: rest =>
           (World (root w) (cwd w) (mounts w) rest (stdout w), Ok line)
       end.

(** *** Path resolution *)

Inductive resolved :=
| Found (p : list string) (n : node)          (* the node at canonical path [p] *)
| Absent (parent : list string) (name : string) (* [parent] is a directory without [name] *)
| Failed (e : exn).

(** The kernel gives up after 40 symlinks. *)
Definition max_links : nat := 40.

Definition is_abs (path : string) : bool := startswith path "/".
Definition is_stay (c : string) : bool := String.eqb c "" || String.eqb c ".".
Definition is_up (c : string) : bool := String.eqb c "..".

(** Resolve the components [comps] from the directory at canonical path
    [cur].  The last component is followed when it is a symlink only if
    [follow]; a symlink in the middle is always followed. *)
Fixpoint walk (fuel : nat) (r : node) (follow : bool)
    (cur : list string) (comps : list string) {struct fuel} : resolved :=
  (fix go (cur : list string) (comps : list string) {struct comps} : resolved :=
     match comps with
     | [] =>
         match tlookup cur r with
         | Some (Dir ch) => Found cur (Dir ch)
         | Some _ => Failed NotADirectoryError
         | None => Failed FileNotFoundError
         end
     | c :: rest =>
         if is_stay c then go cur rest
         else if is_up c then go (removelast cur) rest
         else
           match tlookup cur r with
           | Some (Dir ch) =>
               match ch !! c with
               | None =>
                   match rest with
                   | [] => Absent cur c
                   | _ => Failed FileNotFoundError
                   end
               | Some (Dir _) => go (cur ++ [c]) rest
               | Some (File b) =>
                   match rest with
                   | [] => Found (cur ++ [c]) (File b)
                   | _ => Failed NotADirectoryError
                   end
               | Some (Link t) =>
                   match rest, follow with
                   | [], false => Found (cur ++ [c]) (Link t)
                   | _, _ =>
                       match fuel with
                       | O => Failed (OSError ELOOP)
                       | S f =>
                           walk f r follow (if is_abs t then [] else cur)
                             (split_sep t ++ rest)
                       end
                   end
               end
           | Some _ => Failed NotADirectoryError
           | None => Failed FileNotFoundError
           end
     end) cur comps.

Definition resolve (w : world) (follow : bool) (path : string) : resolved :=
  if String.eqb path "" then Failed FileNotFoundError
  else walk max_links (root w) follow
         (if is_abs path then [] else cwd w) (split_sep path).

(** *** [os.path] queries *)

(** [os.path.exists(p)]: [stat] succeeds *)
Definition path_exists (w : world) (p : string) : bool :=
  match resolve w true p with Found _ _ => true | _ => false end.

(** [os.path.isdir(p)] *)
Definition path_isdir (w : world) (p : string) : bool :=
  match resolve w true p with Found _ (Dir _) => true | _ => false end.

(** [os.path.isfile(p)] *)
Definition path_isfile (w : world) (p : string) : bool :=
  match resolve w true p with Found _ (File _) => true | _ => false end.

(** [os.path.islink(p)]: [lstat] succeeds and finds a symlink *)
Definition path_islink (w : world) (p : string) : bool :=
  match resolve w false p with Found _ (Link _) => true | _ => false end.

(** [os.path.samefile(a, b)], with [OSError] turned into [False] as
    [shutil._samefile] does *)
Definition path_samefile (w : world) (a b : string) : bool :=
  match resolve w true a, resolve w true b with
  | Found pa _, Found pb _ => bool_decide (pa = pb)
  | _, _ => false
  end.

Definition os_path_exists (p : string) : M bool := gets (λ w, path_exists w p).
Definition os_path_isdir (p : string) : M bool := gets (λ w, path_isdir w p).
Definition os_path_isfile (p : string) : M bool := gets (λ w, path_isfile w p).
Definition os_path_islink (p : string) : M bool := gets (λ w, path_islink w p).

(** *** [os] calls *)

(** [os.readlink(p)] *)
Definition os_readlink (p : string) : M string :=
  λ w, match resolve w false p with
       | Found _ (Link t) => (w, Ok t)
       | Found _ _ => (w, Raise (OSError EINVAL))
       | Absent _ _ => (w, Raise FileNotFoundError)
       | Failed e => (w, Raise e)
       end.

Definition dev_of (mounts : list (list string * nat)) (p : list string) : nat :=
  (foldr (λ '(mp, d) best,
            if bool_decide (mp `prefix_of` p) && (length best.1 <=? length mp)
            then (mp, d) else best)
         ([], 0) mounts).2.

(** [os.stat(p).st_dev] *)
Definition os_stat_dev (p : string) : M nat :=
  λ w, match resolve w true p with
       | Found c _ => (w, Ok (dev_of (mounts w) c))
       | Absent _ _ => (w, Raise FileNotFoundError)
       | Failed e => (w, Raise e)
       end.

(** [os.symlink(target, linkpath)] *)
Definition os_symlink (target linkpath : string) : M unit :=
  λ w, match resolve w false linkpath with
       | Found _ _ => (w, Raise FileExistsError)
       | Absent parent name =>
           (set_root (tinsert (parent ++ [name]) (Link target) (root w)) w, Ok tt)
       | Failed e => (w, Raise e)
       end.

(** [os.remove(p)] *)
Definition os_remove (p : string) : M unit :=
  λ w, match resolve w false p with
       | Found _ (Dir _) => (w, Raise IsADirectoryError)
       | Found c _ => (set_root (tdelete c (root w)) w, Ok tt)
       | Absent _ _ => (w, Raise FileNotFoundError)
       | Failed e => (w, Raise e)
       end.

(** [os.listdir(p)] *)
Definition os_listdir (p : string) : M (list string) :=
  λ w, match resolve w true p with
       | Found _ (Dir ch) => (w, Ok (map_to_list ch).*1)
       | Found _ _ => (w, Raise NotADirectoryError)
       | Absent _ _ => (w, Raise FileNotFoundError)
       | Failed e => (w, Raise e)
       end.

(** [os.rmdir(p)] *)
Definition os_rmdir (p : string) : M unit :=
  λ w, match resolve w false p with
       | Found c (Dir ch) =>
           if bool_decide (ch = ∅) then (set_root (tdelete c (root w)) w, Ok tt)
           else (w, Raise (OSError ENOTEMPTY))
       | Found _ _ => (w, Raise NotADirectoryError)
       | Absent _ _ => (w, Raise FileNotFoundError)
       | Failed e => (w, Raise e)
       end.

(** [os.mkdir(p)]; trailing separators of [p] are ignored. *)
Definition os_mkdir (p : string) : M unit :=
  λ w, match resolve w false (if PosixPath.all_sep p then p else rstrip "/" p) with
       | Found _ _ => (w, Raise FileExistsError)
       | Absent parent name =>
           (set_root (tinsert (parent ++ [name]) (Dir ∅) (root w)) w, Ok tt)
       | Failed e => (w, Raise e)
       end.

(** The body of [os.makedirs(name, exist_ok=True)]: create the missing
    ancestors first ([fuel] bounds the recursion on [head], which is
    shorter than [name]), then [name] itself. *)
Fixpoint makedirs_from (fuel : nat) (name : string) : M unit :=
  let '(head, tail) := PosixPath.split name in
  let '(head, tail) :=
    if String.eqb tail "" then PosixPath.split head else (head, tail) in
  bind
    (if negb (String.eqb head "") && negb (String.eqb tail "")
     then bind (os_path_exists head) (λ e,
            if e then ret false
            else match fuel with
                 | O => ret false
                 | S f =>
                     bind (try_except (makedirs_from f head)
                             is_FileExistsError (ret tt))
                          (λ _, ret (String.eqb tail "."))
                 end)
     else ret false)
    (λ stop,
       if (stop : bool) then ret tt
       else try_except (os_mkdir name) is_OSError
              (bind (os_path_isdir name) (λ d,
                 if d then ret tt else raise FileExistsError))).

(** [os.makedirs(name, exist_ok=True)].  On an existing directory the
    call changes nothing ([mkdir] fails, and the failure is dropped
    because [name] is a directory). *)
Definition os_makedirs (name : string) : M unit :=
  bind (os_path_isdir name) (λ d,
    if d then ret tt else makedirs_from (String.length name) name).

(** [open(p, 'a').close()]: create an empty regular file unless there is
    one (through symlinks). *)
Definition open_append_close (p : string) : M unit :=
  λ w, match resolve w true p with
       | Found _ (Dir _) => (w, Raise IsADirectoryError)
       | Found _ _ => (w, Ok tt)
       | Absent parent name =>
           (set_root (tinsert (parent ++ [name]) (File []) (root w)) w, Ok tt)
       | Failed e => (w, Raise e)
       end.

Definition dir_nonempty (n : node) : bool :=
  match n with
  | Dir ch => negb (bool_decide (ch = ∅))
  | _ => false
  end.

Definition is_dir_node (n : node) : bool :=
  match n with Dir _ => true | _ => false end.

Definition move_node (s d : list string) (n : node) (w : world) : world :=
  set_root (tinsert d n (tdelete s (root w))) w.

(** [os.rename(src, dst)] *)
Definition os_rename (src dst : string) : M unit :=
  λ w, match resolve w false src with
       | Found s n =>
           match resolve w false dst with
           | Found d m =>
               if bool_decide (s = d) then (w, Ok tt)
               else if bool_decide (s `prefix_of` d) then (w, Raise (OSError EINVAL))
               else if is_dir_node n && negb (is_dir_node m)
                    then (w, Raise NotADirectoryError)
               else if negb (is_dir_node n) && is_dir_node m
                    then (w, Raise IsADirectoryError)
               else if dir_nonempty m then (w, Raise (OSError ENOTEMPTY))
               else (move_node s d n w, Ok tt)
           | Absent parent name =>
               if bool_decide (s `prefix_of` parent ++ [name])
               then (w, Raise (OSError EINVAL))
               else (move_node s (parent ++ [name]) n w, Ok tt)
           | Failed e => (w, Raise e)
           end
       | Absent _ _ => (w, Raise FileNotFoundError)
       | Failed e => (w, Raise e)
       end.

(** [shutil.move(src, dst)].  A destination that is a directory receives
    [src] inside it.  [shutil] renames, and copies and deletes when the
    rename crosses devices; both leave the same tree, so the move is a
    rename here, and a rename that fails for another reason fails the
    call. *)
Definition shutil_move (src dst : string) : M unit :=
  bind (os_path_isdir dst) (λ d,
    if d then
      bind (gets (λ w, path_samefile w src dst && negb (path_islink w src)))
        (λ same,
           if same then os_rename src dst
           else
             let real_dst :=
               PosixPath.join dst (PosixPath.basename (rstrip "/" src)) in
             bind (os_path_exists real_dst) (λ e,
               if e then raise ShutilError else os_rename src real_dst))
    else os_rename src dst).

End Fs.

(** ** [program.py] *)

Module Program.
Import PyStr Fs.

(** A parsed configuration: section name to the section's items in file
    order.  A key without [= value] has the value [None]
    ([allow_no_value=True]). *)
Abbreviation config := (gmap string (list (string * option string))).

(** [config[name].items()] *)
Definition config_items (cfg : config) (name : string)
    : M (list (string * option string)) :=
  match cfg !! name with
  | Some items => ret items
  | None => raise (KeyError name)
  end.

(** A task is the tuple [(src, dst, is_dir)]. *)
Abbreviation task := (string * string * bool)%type.

Definition task_src (t : task) : string := t.1.1.
Definition task_dst (t : task) : string := t.1.2.

(** [for x in l: body(x)] *)
Fixpoint for_each {A} (l : list A) (body : A → M unit) : M unit :=
  match l with
  | [] => ret tt
  | x :: l' => body x;; for_each l' body
  end.

(** A loop that appends to a local list. *)
Fixpoint for_acc {A S} (l : list A) (body : S → A → M S) (acc : S) : M S :=
  match l with
  | [] => ret acc
  | x :: l' => acc' ← body acc x; for_acc l' body acc'
  end.

Section WithHome.
(** [HOME = os.path.expanduser("~")] *)
Variable HOME : string.

(** [normalize_path(path)] *)
Definition normalize_path (path : string) : string :=
  let path := replace "HOME" HOME path in
  replace "/" "-" (replace "-" "--" path).

(** [is_same_device(path1, path2)] *)
Definition is_same_device (path1 path2 : string) : M bool :=
  dev1 ← os_stat_dev path1;
  dev2 ← os_stat_dev path2;
  ret (dev1 =? dev2).

(** [confirm_move(src, dst)] *)
Definition confirm_move (src dst : string) : M bool :=
  same ← is_same_device src (PosixPath.dirname dst);
  if negb same then
    print (PromptCrossDevice src dst);;
    line ← input;
    let response := lower (strip line) in
    ret (String.eqb response "y")
  else ret true.

(** [handle_path_conflict(src, is_dir)] *)
Definition handle_path_conflict (src : string) (is_dir : bool) : M bool :=
  e ← os_path_exists src;
  if (e : bool) then
    not_dir ← (if is_dir then d ← os_path_isdir src; ret (negb (d : bool))
                else ret false);
    if (not_dir : bool) then
      print (WarnFolderRequired src);; ret false
    else
      not_file ← (if negb is_dir then f ← os_path_isfile src; ret (negb (f : bool))
                   else ret false);
      if (not_file : bool) then
        print (WarnFileRequired src);; ret false
      else ret true
  else ret true.

(** The home-relative path of an addition declaration:
    [raw_path.replace("HOME/", "").rstrip("/")] *)
Definition addition_base_path (raw_path : string) : string :=
  rstrip "/" (replace "HOME/" "" raw_path).

(** The home-relative path of a removal declaration:
    [raw_path[1:].lstrip().replace("HOME/", "", 1).rstrip("/")] *)
Definition removal_base_path (raw_path : string) : string :=
  rstrip "/" (replace_first "HOME/" "" (lstrip (drop 1 raw_path))).

(** [os.path.join(HOME, base_path)] *)
Definition src_of (base_path : string) : string :=
  PosixPath.join HOME base_path.

(** [normalize_path(base_path).rstrip("-")] *)
Definition safe_name (base_path : string) : string :=
  rstrip "-" (normalize_path base_path).

(** [os.path.join(base_dir, normalize_path(base_path).rstrip("-"))] *)
Definition dst_of (base_dir base_path : string) : string :=
  PosixPath.join base_dir (safe_name base_path).

(** The body of the inner [for] of both passes, after the test on the
    removal marker: derive the task, check the type, append. *)
Definition enqueue (base_path_of : string → string)
    (base_dir : option string) (tasks : list task) (raw_path : string)
    : M (list task) :=
  let is_dir := endswith raw_path "/" in
  let base_path := base_path_of raw_path in
  let src := src_of base_path in
  match base_dir with
  | None => raise TypeError
  | Some base_dir =>
      let dst := dst_of base_dir base_path in
      ok ← handle_path_conflict src is_dir;
      if negb ok then ret tasks
      else ret (tasks ++ [(src, dst, is_dir)])
  end.

(** The inner [for] of [apply_additions]: the declarations of one storage. *)
Definition enqueue_additions (base_dir : option string)
    (items : list (string * option string)) (tasks : list task)
    : M (list task) :=
  for_acc items
    (λ tasks '(raw_path, _),
       if startswith raw_path "-" then ret tasks
       else enqueue addition_base_path base_dir tasks raw_path)
    tasks.

(** The two nested [for] loops of [apply_additions]. *)
Definition collect_additions (cfg : config) : M (list task) :=
  dirs ← config_items cfg "dirs";
  for_acc dirs
    (λ tasks '(storage_id, base_dir),
       items ← config_items cfg storage_id;
       enqueue_additions base_dir items tasks)
    [].

(** The body of the second loop of [apply_additions].  The first
    component of the result of the case analysis says whether control
    reaches [os.symlink] (it does not after a [continue]). *)
Definition add_task (t : task) : M unit :=
  let '(src, dst, is_dir) := t in
  l ← os_path_islink src;
  go ← (if (l : bool) then
           target ← os_readlink src;
           if String.eqb target dst then
             print (InfoAlreadyConfigured src);; ret false
           else
             print (ErrorWrongSymlink src);; ret true
         else
           e ← os_path_exists src;
           if (e : bool) then
             de ← os_path_exists dst;
             (if (de : bool) then print (ErrorDstExists dst src) else ret tt);;
             ok ← confirm_move src dst;
             if negb ok then
               print (InfoMoveCancelled src);; ret false
             else
               shutil_move src dst;; ret true
           else
             (if is_dir then os_makedirs dst else open_append_close dst);;
             ret true);
  if (go : bool) then
    os_symlink dst src;;
    print (LinkCreated src dst)
  else ret tt.

Definition src_len (t : task) : nat := String.length (task_src t).

(** [sorted(tasks, key=lambda x: len(x[0]), reverse=True)] *)
Definition addition_order (tasks : list task) : list task :=
  PyList.sorted src_len true tasks.

(** [apply_additions(config)] *)
Definition apply_additions (cfg : config) : M unit :=
  tasks ← collect_additions cfg;
  for_each (addition_order tasks) add_task.

(** The inner [for] of [apply_removals]: the declarations of one storage. *)
Definition enqueue_removals (base_dir : option string)
    (items : list (string * option string)) (tasks : list task)
    : M (list task) :=
  for_acc items
    (λ tasks '(raw_path, _),
       if negb (startswith raw_path "-") then ret tasks
       else enqueue removal_base_path base_dir tasks raw_path)
    tasks.

(** The two nested [for] loops of [apply_removals]. *)
Definition collect_removals (cfg : config) : M (list task) :=
  dirs ← config_items cfg "dirs";
  for_acc dirs
    (λ tasks '(storage_id, base_dir),
       items ← config_items cfg storage_id;
       enqueue_removals base_dir items tasks)
    [].

(** The body of the second loop of [apply_removals]. *)
Definition remove_task (t : task) : M unit :=
  let '(src, dst, is_dir) := t in
  l ← os_path_islink src;
  linked ← (if (l : bool) then
               target ← os_readlink src; ret (String.eqb target dst)
             else ret false);
  if (linked : bool) then
    os_remove src;;
    print (LinkRemoved src dst);;
    de ← os_path_exists dst;
    go ← (if (de : bool) then
             ok ← confirm_move dst src;
             if negb ok then
               print (SkipMoveBack dst src);; ret false
             else
               os_makedirs (PosixPath.dirname src);;
               shutil_move dst src;;
               ret true
           else ret true);
    if (go : bool) then
      d ← os_path_isdir dst;
      if (d : bool) then
        names ← os_listdir dst;
        match names with
        | [] => os_rmdir dst;; print (StoreDirRemoved dst)
        | _ => ret tt
        end
      else ret tt
    else ret tt
  else
    print (WarnNotCorrectLink src).

(** [sorted(tasks, key=lambda x: len(x[0]))] *)
Definition removal_order (tasks : list task) : list task :=
  PyList.sorted src_len false tasks.

(** [apply_removals(config)] *)
Definition apply_removals (cfg : config) : M unit :=
  tasks ← collect_removals cfg;
  for_each (removal_order tasks) remove_task.

(** [apply(config_path)], after [read_config] *)
Definition apply (cfg : config) : M unit :=
  apply_additions cfg;;
  apply_removals cfg.

End WithHome.

End Program.

(** ** Auxiliary definitions used to state and prove the theorems *)

Module StrAux.
Import PyStr.

(** Replacing a one-character [old] is a character-wise substitution. *)
Fixpoint subst_char (a : ascii) (new s : string) : string :=
  match s with
  | "" => ""
  | String c s' =>
      (if decide (c = a) then new else String c "") +:+ subst_char a new s'
  end.


(** The last character of [s] is one of [chars]. *)
Fixpoint ends_in (chars s : string) : bool :=
  match s with
  | "" => false
  | String c s' =>
      match s' with
      | "" => mem c chars
      | _ => ends_in chars s'
      end
  end.


(** The escaping done by [normalize_path] after the token is expanded:
    [path.replace("-", "--").replace("/", "-")]. *)
Definition escape (s : string) : string :=
  replace "/" "-" (replace "-" "--" s).

(** Reading an escaped name back, greedily from the left: two dashes are a
    dash, one dash is a separator. *)
Fixpoint unescape (s : string) : string :=
  match s with
  | "" => ""
  | String c s' =>
      if Ascii.eqb c "-" then
        match s' with
        | String "-" s'' => String "-" (unescape s'')
        | _ => String "/" (unescape s')
        end
      else String c (unescape s')
  end.

(** No separator is directly followed by a dash or by another separator:
    no component after the first starts with a dash, none is empty. *)
Fixpoint clean_separators (s : string) : bool :=
  match s with
  | "" => true
  | String c s' =>
      (if Ascii.eqb c "/" then
         match s' with
         | String d _ => negb (Ascii.eqb d "-") && negb (Ascii.eqb d "/")
         | "" => true
         end
       else true) && clean_separators s'
  end.

(** The home-relative paths on which the backing name is shown to be
    injective: no [HOME] token, clean separators, and the last character is
    neither a dash nor a separator. *)
Definition plain_path (s : string) : bool :=
  negb (contains "HOME" s) && clean_separators s && negb (ends_in "-/" s).

End StrAux.

Module FsAux.
Import PyStr Fs.

(** The target of the symlink at canonical path [c], read from the
    directory of the link, resolves. *)
Definition link_target_exists (w : world) (c : list string) (t : string)
    : bool :=
  match walk max_links (root w) true
          (if is_abs t then [] else removelast c) (split_sep t) with
  | Found _ _ => true
  | _ => false
  end.

Definition is_file_node (n : node) : bool :=
  match n with File _ => true | _ => false end.

(** The type found on disk disagrees with the declared one. *)
Definition type_disagrees (n : node) (is_dir : bool) : bool :=
  if is_dir then negb (is_dir_node n) else negb (is_file_node n).

(** The warning [handle_path_conflict] prints for a declaration. *)
Definition conflict_warning (src : string) (is_dir : bool) : message :=
  if is_dir then WarnFolderRequired src else WarnFileRequired src.

End FsAux.

Module ProgramAux.
Import PyStr Fs Program.

(** The tasks that the declarations of a pass derive, in declaration order,
    before the type check: [skipped] is the test on the removal marker,
    [base_path_of] the derivation of the home-relative path. *)
Definition declared_tasks (HOME : string) (skipped : string → bool)
    (base_path_of : string → string) (cfg : config) : list task :=
  '(storage_id, base_dir) ← default [] (cfg !! "dirs");
  match base_dir with
  | None => []
  | Some base_dir =>
      '(raw_path, _) ← default [] (cfg !! storage_id);
      if skipped raw_path then []
      else [(src_of HOME (base_path_of raw_path),
             dst_of HOME base_dir (base_path_of raw_path),
             endswith raw_path "/")]
  end.

Definition declared_additions (HOME : string) (cfg : config) : list task :=
  declared_tasks HOME (λ raw_path, startswith raw_path "-")
    addition_base_path cfg.


Definition linkedb (w : world) (t : task) : bool :=
  match resolve w false (task_src t) with
  | Found _ (Link target) => String.eqb target (task_dst t)
  | _ => false
  end.

(** An action that does nothing but print. *)
Definition only_says {A} (m : M A) : Prop :=
  ∀ w, ∃ msgs, (m w).1 = say msgs w.

(** [src] is a symlink whose target is [dst]. *)
Definition linked (w : world) (t : task) : Prop :=
  ∃ c, resolve w false (task_src t) = Found c (Link (task_dst t)).

End ProgramAux.

Module TreeAux.
Import PyStr Fs.

(** [p] and [q] lie in different subtrees. *)
Definition indep (p q : list string) : Prop :=
  ¬ p `prefix_of` q ∧ ¬ q `prefix_of` p.

Definition indepb (p q : list string) : bool :=
  negb (bool_decide (p `prefix_of` q)) && negb (bool_decide (q `prefix_of` p)).

(** The one operation behind [tinsert] and [tdelete]: apply [f] to the
    binding at canonical path [p]. *)
Fixpoint tupdate (p : list string) (f : option node → option node)
    (n : node) : node :=
  match p with
  | [] => n
  | c :: p' =>
      match n with
      | Dir ch =>
          Dir (partial_alter
                 (match p' with
                  | [] => f
                  | _ => fmap (tupdate p' f)
                  end) c ch)
      | _ => n
      end
  end.

Definition is_dir_at (r : node) (p : list string) : Prop :=
  ∃ ch, tlookup p r = Some (Dir ch).

Definition is_link_node (n : node) : bool :=
  match n with Link _ => true | _ => false end.

(** A name of a directory entry. *)
Definition is_name (c : string) : bool :=
  negb (String.eqb c "") && negb (contains "/" c)
  && negb (String.eqb c ".") && negb (String.eqb c "..").

(** The absolute path string of a canonical path. *)
Fixpoint path_of (cs : list string) : string :=
  match cs with
  | [] => ""
  | c :: cs' => "/" +:+ c +:+ path_of cs'
  end.

(** What a successful [add_task] does to the tree for a plain entry at [s]
    and nothing at [d]: the entry moves to [d], a symlink takes its place. *)
Definition link_in (s d : list string) (r : node) : node :=
  match tlookup s r with
  | Some x => tinsert s (Link (path_of d)) (tinsert d x (tdelete s r))
  | None => r
  end.

(** What a successful [remove_task] does to the tree: the symlink at [s]
    goes, the entry at [d] moves back. *)
Definition unlink_in (s d : list string) (r : node) : node :=
  match tlookup d r with
  | Some x => tinsert s x (tdelete d (tdelete s r))
  | None => tdelete s r
  end.

End TreeAux.

Module PassAux.
Import PyStr Fs Program TreeAux.

(** A task given by the canonical paths of [src] and [dst]. *)
Abbreviation placed := (list string * list string * bool)%type.

Definition placed_src (p : placed) : list string := p.1.1.
Definition placed_dst (p : placed) : list string := p.1.2.

Definition to_task (p : placed) : task :=
  (path_of (placed_src p), path_of (placed_dst p), p.2).

Definition is_path (p : list string) : bool :=
  forallb is_name p && negb (bool_decide (p = [])).

Definition is_dir_atb (r : node) (p : list string) : bool :=
  match tlookup p r with Some (Dir _) => true | _ => false end.

(** The entry at [src] is a regular file or a directory, as declared;
    there is nothing at [dst], and the directory that is to hold [dst] is
    there. *)
Definition relocatable (r : node) (p : placed) : bool :=
  is_path (placed_src p) && is_path (placed_dst p)
  && match tlookup (placed_src p) r with
     | Some x => negb (is_link_node x) && Bool.eqb p.2 (is_dir_node x)
     | None => false
     end
  && bool_decide (tlookup (placed_dst p) r = None)
  && is_dir_atb r (removelast (placed_dst p)).

(** [src] is a symlink to [dst], and the entry at [dst] is a regular file
    or a directory, as declared. *)
Definition relocated (r : node) (p : placed) : bool :=
  is_path (placed_src p) && is_path (placed_dst p)
  && match tlookup (placed_src p) r with
     | Some (Link t) => String.eqb t (path_of (placed_dst p))
     | _ => false
     end
  && match tlookup (placed_dst p) r with
     | Some x => negb (is_link_node x) && Bool.eqb p.2 (is_dir_node x)
     | None => false
     end.

(** The two tasks touch paths none of which is above another one (or the
    same). *)
Definition apartb (p q : placed) : bool :=
  indepb (placed_src p) (placed_src q) && indepb (placed_src p) (placed_dst q)
  && indepb (placed_dst p) (placed_src q)
  && indepb (placed_dst p) (placed_dst q).

(** The same of all the paths of the tasks of a list. *)
Fixpoint tasks_indep (ps : list placed) : bool :=
  match ps with
  | [] => true
  | p :: ps' =>
      indepb (placed_src p) (placed_dst p) && forallb (apartb p) ps'
      && tasks_indep ps'
  end.

(** The tree after the tasks were added, and after they were removed, one
    after the other. *)
Definition link_all (ps : list placed) (r : node) : node :=
  foldl (λ r p, link_in (placed_src p) (placed_dst p) r) r ps.

Definition unlink_all (ps : list placed) (r : node) : node :=
  foldl (λ r p, unlink_in (placed_src p) (placed_dst p) r) r ps.

(** An answer that [confirm_move] takes as a yes. *)
Definition accepting (line : string) : bool :=
  String.eqb (lower (strip line)) "y".

(** The section [dirs] is there, every storage has a base directory and a
    section of its own. *)
Definition config_ok (cfg : config) : bool :=
  match cfg !! "dirs" with
  | Some dirs =>
      forallb (λ '(storage_id, base_dir),
                 bool_decide (is_Some (cfg !! storage_id))
                 && bool_decide (is_Some (base_dir : option string)))
        dirs
  | None => false
  end.

(** The world with the tree [r], after [k] lines were read and the lines
    [msgs] were printed. *)
Definition after (r : node) (k : nat) (msgs : list message) (w : world)
    : world :=
  World r (cwd w) (mounts w) (list.drop k (stdin w)) (stdout w ++ msgs).

End PassAux.

(** ** Concrete worlds and configurations for the examples *)

Module Scenario.
Import Fs Program.

Definition dir (entries : list (string * node)) : node :=
  Dir (list_to_map entries).

(** A home directory [/home/u] with a regular file [foo], a directory
    [Pictures] with one photo, a symlink [bad] to a path that does not
    exist, and two empty storage directories under [/mnt]. *)
Definition tree0 : node :=
  dir [("home", dir [("u", dir [("foo", File ["f"%byte]);
                                ("Pictures", dir [("a.jpg", File ["x"%byte])]);
                                ("bad", Link "/elsewhere")])]);
       ("mnt", dir [("photos", dir []); ("docs", dir [])])].

(** Everything on one device, nothing to read from standard input. *)
Definition world0 : world := World tree0 [] [] [] [].

(** [/mnt/photos] is a mount point of another device; the operator answers
    [n] to every question. *)
Definition world_declining : world :=
  World tree0 [] [(["mnt"; "photos"], 1)] ["n"; "n"] [].



(** One storage that declares the symlink [bad] and then the file [foo]. *)
Definition cfg_bad : config :=
  list_to_map [("dirs", [("photos", Some "/mnt/photos")]);
               ("photos", [("bad", None); ("foo", None)])].



(** The directory [Pictures] and the file [foo], and their removal. *)
Definition cfg_two : config :=
  list_to_map [("dirs", [("photos", Some "/mnt/photos")]);
               ("photos", [("Pictures/", None); ("foo", None)])].


(** A directory [foo] with a file in it, both declared, while the storage
    already has a directory [foo]. *)
Definition tree_nested : node :=
  dir [("home", dir [("u", dir [("foo", dir [("bar.txt", File ["b"%byte])])])]);
       ("mnt", dir [("photos", dir [("foo", dir [])])])].

Definition world_nested : world := World tree_nested [] [] [] [].

Definition cfg_nested : config :=
  list_to_map [("dirs", [("photos", Some "/mnt/photos")]);
               ("photos", [("foo/bar.txt", None); ("foo/", None)])].

(** The same home directory with an empty storage, and the removal of the
    two declarations. *)
Definition tree_inside : node :=
  dir [("home", dir [("u", dir [("foo", dir [("bar.txt", File ["b"%byte])])])]);
       ("mnt", dir [("photos", dir [])])].

Definition world_inside : world := World tree_inside [] [] [] [].

Definition cfg_nested_removal : config :=
  list_to_map [("dirs", [("photos", Some "/mnt/photos")]);
               ("photos", [("-foo/bar.txt", None); ("-foo/", None)])].

(** [/mnt/photos] is a mount point of another device; the operator answers
    yes to every question. *)
Definition world_accepting : world :=
  World tree0 [] [(["mnt"; "photos"], 1)] ["y"; " Y "; "y"; "Y"] [].

(** The tasks of [cfg_two], by their canonical paths. *)
Definition placed_two : list (list string * list string * bool) :=
  [(["home"; "u"; "Pictures"], ["mnt"; "photos"; "Pictures"], true);
   (["home"; "u"; "foo"], ["mnt"; "photos"; "foo"], false)].

End Scenario.

(** ** Further auxiliary definitions and scenarios *)

Module ExtraAux.
Import PyStr Fs Program.

(** Every declaration of the configuration, storage by storage. *)
Definition declarations (cfg : config) : list string :=
  '(storage_id, _) ← default [] (cfg !! "dirs");
  (default [] (cfg !! storage_id)).*1.

(** What the addition pass creates at [dst] when there is nothing at
    [src]: [os.makedirs(dst)] or [open(dst, 'a').close()]. *)
Definition empty_entry (is_dir : bool) : node :=
  if is_dir then Dir ∅ else File [].

End ExtraAux.

Module ExtraScenario.
Import Fs Program Scenario.

(** The backing name of [foo] is taken by a file; the operator says yes. *)
Definition tree_taken : node :=
  dir [("home", dir [("u", dir [("foo", File ["f"%byte])])]);
       ("mnt", dir [("photos", dir [("foo", File ["o"%byte; "l"%byte; "d"%byte])])])].

Definition world_taken : world :=
  World tree_taken [] [(["mnt"; "photos"], 1)] ["y"] [].

(** [foo] is linked, the backing entry is there or not; [/mnt/photos] is on
    another device and the operator says no. *)
Definition tree_linked : node :=
  dir [("home", dir [("u", dir [("foo", Link "/mnt/photos/foo")])]);
       ("mnt", dir [("photos", dir [("foo", File ["f"%byte])])])].

Definition world_linked_declining : world :=
  World tree_linked [] [(["mnt"; "photos"], 1)] ["no"] [].

Definition tree_backing_gone : node :=
  dir [("home", dir [("u", dir [("foo", Link "/mnt/photos/foo")])]);
       ("mnt", dir [("photos", dir [])])].

Definition world_backing_gone : world := World tree_backing_gone [] [] [] [].


End ExtraScenario.

(** * Theorems *)

(** ** Facts about the [str] methods *)

Module PyStrFacts.
Import PyStr StrAux.

Lemma app_nil_l (s : string) : "" +:+ s = s.
Proof. reflexivity. Qed.

Lemma app_cons (c : ascii) (s t : string) :
  String c s +:+ t = String c (s +:+ t).
Proof. reflexivity. Qed.

Lemma app_nil_r (s : string) : s +:+ "" = s.
Proof. induction s as [|c s IH]; [done|]. by rewrite app_cons, IH. Qed.

Lemma app_assoc (s t u : string) : (s +:+ t) +:+ u = s +:+ (t +:+ u).
Proof.
  induction s as [|c s IH]; [done|]. by rewrite !app_cons, IH.
Qed.

Lemma length_app (s t : string) :
  String.length (s +:+ t) = String.length s + String.length t.
Proof.
  induction s as [|c s IH]; [done|]. rewrite app_cons. simpl. by rewrite IH.
Qed.

(** *** [startswith] *)

Lemma startswith_cons (a b : ascii) (p s : string) :
  startswith (String b s) (String a p)
  = if decide (a = b) then startswith s p else false.
Proof.
  cbn [startswith]. case_decide as H.
  - subst. by rewrite Ascii.eqb_refl.
  - apply Ascii.eqb_neq in H. by rewrite H.
Qed.

Lemma startswith_spec (s p : string) :
  startswith s p = true ↔ ∃ r, s = p +:+ r.
Proof.
  revert s. induction p as [|a p IH]; intros s.
  - split; [intros _; by exists s|done].
  - destruct s as [|b s].
    + split; [done|]. intros [r Hr]. by rewrite app_cons in Hr.
    + rewrite startswith_cons. case_decide as Hab.
      * subst b. rewrite IH. split; intros [r Hr]; exists r.
        -- by rewrite app_cons, Hr.
        -- rewrite app_cons in Hr. by simplify_eq.
      * split; [done|]. intros [r Hr]. rewrite app_cons in Hr.
        by simplify_eq.
Qed.

Lemma startswith_app (p r : string) : startswith (p +:+ r) p = true.
Proof. apply startswith_spec. by exists r. Qed.

Lemma startswith_nil (p : string) : p ≠ "" → startswith "" p = false.
Proof. by destruct p. Qed.

Lemma drop_app_length (p r : string) : drop (String.length p) (p +:+ r) = r.
Proof. induction p as [|a p IH]; [by destruct r|]. by rewrite app_cons. Qed.

Lemma drop_nil (n : nat) : drop n "" = "".
Proof. by destruct n. Qed.

(** *** [replace] *)

Lemma replace_from_nil (old new : string) (k : nat) :
  replace_from old new k "" = "".
Proof. by destruct k. Qed.

(** Skipping [k] characters is dropping them. *)
Lemma replace_from_skip (old new : string) (k : nat) (s : string) :
  replace_from old new k s = replace_from old new 0 (drop k s).
Proof.
  revert s. induction k as [|k IH]; intros s.
  - by destruct s.
  - destruct s as [|c s]; [done|]. simpl. apply IH.
Qed.

(** The defining equations of the scan. *)
Lemma replace_from_match (old new s r : string) :
  old ≠ "" → s = old +:+ r →
  replace_from old new 0 s = new +:+ replace_from old new 0 r.
Proof.
  intros Hold ->. destruct old as [|a o]; [done|].
  rewrite app_cons. cbn [replace_from].
  rewrite <-app_cons, startswith_app.
  rewrite replace_from_skip. simpl String.length.
  replace (S (String.length o) - 1) with (String.length o) by lia.
  by rewrite drop_app_length.
Qed.

Lemma replace_from_no_match (old new : string) (c : ascii) (s : string) :
  startswith (String c s) old = false →
  replace_from old new 0 (String c s)
  = String c (replace_from old new 0 s).
Proof. intros H. cbn [replace_from]. by rewrite H. Qed.

(** Nothing to replace: the string is returned as it is. *)
Lemma replace_from_absent (old new s : string) :
  contains old s = false → replace_from old new 0 s = s.
Proof.
  induction s as [|c s IH]; [done|].
  cbn [contains]. intros [Hp Hc]%orb_false_elim.
  rewrite replace_from_no_match by done. by rewrite IH.
Qed.

Lemma replace_nonempty (old new s : string) :
  old ≠ "" → replace old new s = replace_from old new 0 s.
Proof. by destruct old. Qed.

Lemma replace_absent (old new s : string) :
  old ≠ "" → contains old s = false → replace old new s = s.
Proof.
  intros Hold Hc. rewrite replace_nonempty by done.
  by apply replace_from_absent.
Qed.

Lemma replace_char (a : ascii) (new s : string) :
  replace (String a "") new s = subst_char a new s.
Proof.
  unfold replace. induction s as [|c s IH]; [done|].
  cbn [replace_from subst_char]. rewrite startswith_cons.
  case_decide as H1; case_decide as H2; try congruence.
  - simpl String.length. simpl Nat.sub. by rewrite IH.
  - by rewrite IH.
Qed.

Lemma subst_char_app (a : ascii) (new s t : string) :
  subst_char a new (s +:+ t) = subst_char a new s +:+ subst_char a new t.
Proof.
  induction s as [|c s IH]; [done|].
  rewrite app_cons. cbn [subst_char]. by rewrite IH, app_assoc.
Qed.

(** *** [replace(old, new, 1)] *)

Lemma replace_first_absent (old new s : string) :
  contains old s = false → replace_first old new s = s.
Proof.
  induction s as [|c s IH].
  - cbn. by intros ->%orb_false_elim%proj1.
  - cbn [contains replace_first]. intros [-> Hc]%orb_false_elim.
    by rewrite IH.
Qed.

Lemma contains_drop (old s : string) (n : nat) :
  contains old s = false → contains old (drop n s) = false.
Proof.
  revert s. induction n as [|n IH]; intros s; [by destruct s|].
  destruct s as [|c s]; [done|]. cbn [contains drop].
  intros [_ Hc]%orb_false_elim. by apply IH.
Qed.

(** When [old] occurs at most once, the leftmost replacement is the whole
    replacement. *)
Lemma replace_once (old new s : string) :
  old ≠ "" →
  contains old (replace_first old "" s) = false →
  replace old new s = replace_first old new s.
Proof.
  intros Hold. rewrite replace_nonempty by done.
  induction s as [|c s IH].
  - cbn. by rewrite startswith_nil.
  - cbn [replace_first].
    destruct (startswith (String c s) old) eqn:Hp.
    + apply startswith_spec in Hp as [r Hr]. rewrite Hr.
      rewrite drop_app_length, app_nil_l. intros Hc.
      rewrite (replace_from_match old new _ r) by done.
      by rewrite replace_from_absent.
    + cbn [contains]. intros [_ Hc]%orb_false_elim.
      rewrite replace_from_no_match by done. by rewrite IH.
Qed.

(** *** [rstrip] *)

Lemma rstrip_id (chars s : string) :
  ends_in chars s = false → rstrip chars s = s.
Proof.
  induction s as [|c s IH]; [done|].
  cbn [ends_in rstrip]. destruct s as [|d s].
  - by intros ->.
  - intros H. by rewrite IH.
Qed.

Lemma ends_in_app (chars s t : string) :
  t ≠ "" → ends_in chars (s +:+ t) = ends_in chars t.
Proof.
  intros Ht. induction s as [|c s IH]; [done|].
  rewrite app_cons. cbn [ends_in].
  destruct (s +:+ t) eqn:Hst; [|done].
  destruct s; [|done]. by rewrite app_nil_l in Hst.
Qed.

(** *** [lstrip] *)

Lemma lstrip_id (s : string) :
  match s with "" => true | String c _ => negb (isspace c) end = true →
  lstrip s = s.
Proof. destruct s as [|c s]; [done|]. cbn. by intros ->%negb_true_iff. Qed.

End PyStrFacts.

(** ** Facts about the world and path resolution *)

Module FsFacts.
Import PyStr Fs FsAux.

Lemma say_nil (w : world) : say [] w = w.
Proof. destruct w. unfold say. simpl. by rewrite app_nil_r. Qed.


Lemma resolve_say (m : list message) (w : world) (fl : bool) (p : string) :
  resolve (say m w) fl p = resolve w fl p.
Proof. reflexivity. Qed.

Lemma path_exists_say m w p : path_exists (say m w) p = path_exists w p.
Proof. reflexivity. Qed.

Lemma path_isdir_say m w p : path_isdir (say m w) p = path_isdir w p.
Proof. reflexivity. Qed.

Lemma path_isfile_say m w p : path_isfile (say m w) p = path_isfile w p.
Proof. reflexivity. Qed.

Lemma path_islink_say m w p : path_islink (say m w) p = path_islink w p.
Proof. reflexivity. Qed.

(** *** The equations of [walk] *)

Lemma walk_nil (f : nat) (r : node) (fl : bool) (cur : list string) :
  walk f r fl cur []
  = match tlookup cur r with
    | Some (Dir ch) => Found cur (Dir ch)
    | Some _ => Failed NotADirectoryError
    | None => Failed FileNotFoundError
    end.
Proof. by destruct f. Qed.

Lemma walk_cons (f : nat) (r : node) (fl : bool) (cur : list string)
    (c : string) (rest : list string) :
  walk f r fl cur (c :: rest)
  = if is_stay c then walk f r fl cur rest
    else if is_up c then walk f r fl (removelast cur) rest
    else
      match tlookup cur r with
      | Some (Dir ch) =>
          match ch !! c with
          | None =>
              match rest with
              | [] => Absent cur c
              | _ => Failed FileNotFoundError
              end
          | Some (Dir _) => walk f r fl (cur ++ [c]) rest
          | Some (File b) =>
              match rest with
              | [] => Found (cur ++ [c]) (File b)
              | _ => Failed NotADirectoryError
              end
          | Some (Link t) =>
              match rest, fl with
              | [], false => Found (cur ++ [c]) (Link t)
              | _, _ =>
                  match f with
                  | O => Failed (OSError ELOOP)
                  | S f' =>
                      walk f' r fl (if is_abs t then [] else cur)
                        (split_sep t ++ rest)
                  end
              end
          end
      | Some _ => Failed NotADirectoryError
      | None => Failed FileNotFoundError
      end.
Proof. by destruct f. Qed.

(** More fuel does not change an answer other than [ELOOP]. *)
Lemma walk_fuel_mono (r : node) (fl : bool) (f : nat) :
  ∀ f' cur comps, f ≤ f' →
    walk f r fl cur comps ≠ Failed (OSError ELOOP) →
    walk f' r fl cur comps = walk f r fl cur comps.
Proof.
  induction f as [|f IHf]; intros f' cur comps Hle; revert cur;
    (induction comps as [|c rest IHc]; intros cur;
     [by rewrite !walk_nil|]);
    rewrite !walk_cons;
    (destruct (is_stay c); [by apply IHc|]);
    (destruct (is_up c); [by apply IHc|]);
    (destruct (tlookup cur r) as [[| |ch]|]; [done..| |done]);
    (destruct (ch !! c) as [[|t|]|]; [done| |by apply IHc|done]).
  - destruct rest, fl; done.
  - destruct f' as [|f']; [lia|].
    destruct rest, fl; try done; apply IHf; lia.
Qed.

(** A symlink found by [lstat] is what [stat] follows as its last step. *)
Lemma walk_follow_link (r : node) (f : nat) :
  ∀ cur comps c t,
    walk f r false cur comps = Found c (Link t) →
    walk f r true cur comps = Failed (OSError ELOOP)
    ∨ ∃ f', f' ≤ f ∧
        walk f r true cur comps
        = walk f' r true (if is_abs t then [] else removelast c) (split_sep t).
Proof.
  induction f as [|f IHf]; intros cur comps; revert cur;
    (induction comps as [|c0 rest IHc]; intros cur c t;
     [rewrite !walk_nil; by repeat case_match|]);
    rewrite !walk_cons;
    (destruct (is_stay c0); [by apply IHc|]);
    (destruct (is_up c0); [by apply IHc|]);
    (destruct (tlookup cur r) as [[| |ch]|]; [done..| |done]);
    (destruct (ch !! c0) as [[|t0|]|];
     [by destruct rest| |by apply IHc|by destruct rest]).
  - destruct rest; [|done]. intros [= <- <-]. by left.
  - destruct rest.
    + intros [= <- <-]. right. exists f. split; [lia|].
      by rewrite removelast_last, app_nil_r.
    + intros H. destruct (IHf _ _ _ _ H) as [->|(f' & Hf' & ->)]; [by left|].
      right. exists f'. split; [lia|done].
Qed.

(** A dangling symlink does not exist for [stat]. *)
Lemma walk_dangling (r : node) (f : nat) (cur comps c : list string) (t : string) :
  walk f r false cur comps = Found c (Link t) →
  match walk f r true (if is_abs t then [] else removelast c) (split_sep t) with
  | Found _ _ => false | _ => true end = true →
  match walk f r true cur comps with Found _ _ => false | _ => true end = true.
Proof.
  intros Hl Ht.
  apply walk_follow_link in Hl as [->|(f' & Hf' & ->)]; [done|].
  destruct (walk f' r true _ _) as [p n| |e] eqn:Hw; [|done..].
  rewrite (walk_fuel_mono r true f' f) in Ht by (done || by rewrite Hw).
  by rewrite Hw in Ht.
Qed.

Lemma dangling_not_exists (w : world) (path : string) (c : list string) (t : string) :
  resolve w false path = Found c (Link t) →
  link_target_exists w c t = false →
  path_exists w path = false.
Proof.
  unfold resolve, path_exists, link_target_exists, resolve.
  generalize max_links. intros f.
  destruct (String.eqb path ""); [done|].
  intros Hl Ht. eapply walk_dangling in Hl.
  - by destruct (walk f (root w) true _ (split_sep path)).
  - by destruct (walk f (root w) true _ (split_sep t)).
Qed.
End FsFacts.

(** ** Facts about the functions of the program *)

Module ProgramFacts.
Import PyStr Fs FsAux FsFacts Program ProgramAux.

(** *** The monad *)

Lemma bind_ok {A B} (m : M A) (k : A → M B) (w w' : world) (a : A) :
  m w = (w', Ok a) → (m ≫= k) w = k a w'.
Proof. unfold mbind, M_bind, bind. by intros ->. Qed.

Lemma bind_raise {A B} (m : M A) (k : A → M B) (w w' : world) (e : exn) :
  m w = (w', Raise e) → (m ≫= k) w = (w', Raise e).
Proof. unfold mbind, M_bind, bind. by intros ->. Qed.


Lemma bind_assoc {A B C} (m : M A) (k : A → M B) (k' : B → M C) (w : world) :
  ((m ≫= k) ≫= k') w = (m ≫= (λ a, k a ≫= k')) w.
Proof. unfold mbind, M_bind, bind. by destruct (m w) as [w1 [a|e]]. Qed.

Lemma bind_ret {A B} (a : A) (k : A → M B) (w : world) :
  (ret a ≫= k) w = k a w.
Proof. reflexivity. Qed.

Lemma bind_raise_l {A B} (e : exn) (k : A → M B) (w : world) :
  (raise e ≫= k) w = (w, Raise e).
Proof. reflexivity. Qed.

Lemma bind_gets {A B} (f : world → A) (k : A → M B) (w : world) :
  (gets f ≫= k) w = k (f w) w.
Proof. reflexivity. Qed.

Lemma bind_print {B} (msg : message) (k : unit → M B) (w : world) :
  (print msg ≫= k) w = k tt (say [msg] w).
Proof. reflexivity. Qed.

Lemma bind_if {A B} (b : bool) (m1 m2 : M A) (k : A → M B) (w : world) :
  ((if b then m1 else m2) ≫= k) w
  = if b then (m1 ≫= k) w else (m2 ≫= k) w.
Proof. by destruct b. Qed.



Lemma only_says_gets {A} (f : world → A) : only_says (gets f).
Proof. intros w. exists []. by rewrite say_nil. Qed.

Lemma only_says_print (msg : message) : only_says (print msg).
Proof. intros w. by exists [msg]. Qed.



(** *** [handle_path_conflict] *)

Lemma handle_path_conflict_eq (src : string) (is_dir : bool) (w : world) :
  handle_path_conflict src is_dir w
  = if path_exists w src then
      if is_dir then
        if path_isdir w src then (w, Ok true)
        else (say [WarnFolderRequired src] w, Ok false)
      else
        if path_isfile w src then (w, Ok true)
        else (say [WarnFileRequired src] w, Ok false)
    else (w, Ok true).
Proof.
  unfold handle_path_conflict, mbind, M_bind, bind, os_path_exists,
    os_path_isdir, os_path_isfile, gets, ret, print.
  destruct (path_exists w src); [|done].
  destruct is_dir; simpl.
  - by destruct (path_isdir w src).
  - by destruct (path_isfile w src).
Qed.



Lemma handle_path_conflict_absent (src : string) (is_dir : bool) (w : world) :
  path_exists w src = false → handle_path_conflict src is_dir w = (w, Ok true).
Proof. intros H. by rewrite handle_path_conflict_eq, H. Qed.

(** *** The first loop of both passes *)

Lemma enqueue_eq (HOME : string) (base_path_of : string → string)
    (base_dir : string) (tasks : list task) (raw_path : string) (w : world) :
  enqueue HOME base_path_of (Some base_dir) tasks raw_path w
  = let src := src_of HOME (base_path_of raw_path) in
    let dst := dst_of HOME base_dir (base_path_of raw_path) in
    let is_dir := endswith raw_path "/" in
    match handle_path_conflict src is_dir w with
    | (w', Ok true) => (w', Ok (tasks ++ [(src, dst, is_dir)]))
    | (w', Ok false) => (w', Ok tasks)
    | (w', Raise e) => (w', Raise e)
    end.
Proof.
  unfold enqueue, mbind, M_bind, bind, ret.
  destruct (handle_path_conflict _ _ w) as [w' [[]|e]]; done.
Qed.










End ProgramFacts.

(** ** Facts about the tree operations *)

Module TreeFacts.
Import PyStr Fs FsAux TreeAux.

(** Reduce the option monad only. *)
Ltac osimpl :=
  cbn [mbind option_bind fmap option_fmap option_map mret option_ret] in *.

Lemma indepb_spec (p q : list string) : indepb p q = true → indep p q.
Proof.
  unfold indepb, indep. intros [H1 H2]%andb_prop.
  apply negb_true_iff, bool_decide_eq_false in H1, H2. done.
Qed.

Lemma indep_sym (p q : list string) : indep p q → indep q p.
Proof. unfold indep. tauto. Qed.

Lemma indep_cons (c : string) (p q : list string) :
  indep (c :: p) (c :: q) → indep p q.
Proof.
  intros [H1 H2]. split; intros H; [apply H1|apply H2]; by apply prefix_cons.
Qed.

Lemma indep_nil_l (q : list string) : ¬ indep [] q.
Proof. intros [H _]. apply H, prefix_nil. Qed.

Lemma indep_nil_r (p : list string) : ¬ indep p [].
Proof. intros [_ H]. apply H, prefix_nil. Qed.

Lemma tupdate_nondir (p : list string) f (n : node) :
  is_dir_node n = false → tupdate p f n = n.
Proof. by destruct p, n. Qed.

Lemma tinsert_tupdate (p : list string) (x : node) (r : node) :
  p ≠ [] → tinsert p x r = tupdate p (λ _, Some x) r.
Proof.
  revert r. induction p as [|c p IH]; intros r Hp; [done|].
  destruct r as [| |ch]; [done..|]. cbn [tinsert tupdate].
  destruct p as [|c' p]; [done|]. f_equal.
  apply partial_alter_ext. intros [n|] _; [|done].
  cbn [fmap option_fmap option_map]. by rewrite IH.
Qed.

Lemma tdelete_tupdate (p : list string) (r : node) :
  tdelete p r = tupdate p (λ _, None) r.
Proof.
  revert r. induction p as [|c p IH]; intros r; [done|].
  destruct r as [| |ch]; [done..|]. cbn [tdelete tupdate].
  destruct p as [|c' p]; [done|]. f_equal.
  apply partial_alter_ext. intros [n|] _; [|done].
  cbn [fmap option_fmap option_map]. by rewrite IH.
Qed.

Lemma tlookup_cons (c : string) (p : list string) (ch : gmap string node) :
  tlookup (c :: p) (Dir ch) = ch !! c ≫= tlookup p.
Proof. cbn [tlookup]. by destruct (ch !! c). Qed.

Lemma tlookup_app (p q : list string) (r : node) :
  tlookup (p ++ q) r = tlookup p r ≫= tlookup q.
Proof.
  revert r. induction p as [|c p IH]; intros r; [done|].
  destruct r as [| |ch]; [done..|]. rewrite <-app_comm_cons, !tlookup_cons.
  destruct (ch !! c) as [n|]; osimpl; [apply IH|done].
Qed.

(** A binding has a directory above it. *)
Lemma tlookup_parent (p : list string) (r x : node) :
  p ≠ [] → tlookup p r = Some x → is_dir_at r (removelast p).
Proof.
  intros Hp. destruct (exists_last Hp) as (q & c & ->).
  rewrite removelast_last, tlookup_app. unfold is_dir_at.
  destruct (tlookup q r) as [[| |ch]|]; osimpl; try done. intros _. by exists ch.
Qed.

(** An update leaves the other subtrees alone. *)
Lemma tlookup_tupdate_indep (p q : list string) f (r : node) :
  indep p q → tlookup p (tupdate q f r) = tlookup p r.
Proof.
  revert p r. induction q as [|d q IH]; intros p r Hi; [done|].
  destruct p as [|c p]; [by apply indep_nil_l in Hi|].
  destruct r as [| |ch]; [done..|]. cbn [tupdate]. rewrite !tlookup_cons.
  rewrite lookup_partial_alter. case_decide as Hcd; [subst d|done].
  apply indep_cons in Hi.
  destruct q as [|d' q]; [by apply indep_nil_r in Hi|].
  destruct (ch !! c) as [n|]; osimpl; [by apply IH|done].
Qed.

(** ... and the directories that are not below the updated path stay
    directories. *)
Lemma is_dir_at_tupdate (p q : list string) f (r : node) :
  ¬ q `prefix_of` p → is_dir_at r p → is_dir_at (tupdate q f r) p.
Proof.
  revert q r. induction p as [|c p IH]; intros q r Hq [ch Hch].
  - simpl in Hch. injection Hch as ->.
    destruct q as [|d q]; [by exists ch|]. cbn [tupdate]. by eexists.
  - destruct r as [| |ch0]; [done..|].
    destruct q as [|d q]; [by exists ch|]. cbn [tupdate].
    unfold is_dir_at. rewrite tlookup_cons in *. rewrite lookup_partial_alter.
    case_decide as Hcd; [subst d|by exists ch].
    destruct q as [|d' q].
    { exfalso. apply Hq. apply prefix_cons, prefix_nil. }
    destruct (ch0 !! c) as [n|]; osimpl; [|done].
    apply IH; [|by exists ch]. intros H. by apply Hq, prefix_cons.
Qed.

(** At the updated path, under a directory, the binding is what [f] says. *)
Lemma tlookup_tupdate_eq (p : list string) f (r : node) :
  p ≠ [] → is_dir_at r (removelast p) →
  tlookup p (tupdate p f r) = f (tlookup p r).
Proof.
  revert r. induction p as [|c p IH]; intros r Hp [ch Hch]; [done|].
  destruct p as [|c' p].
  - simpl in Hch. injection Hch as ->. cbn [tupdate].
    rewrite !tlookup_cons, lookup_partial_alter_eq.
    by destruct (ch !! c), (f _).
  - destruct r as [| |ch0]; [done..|].
    change (removelast (c :: c' :: p)) with (c :: removelast (c' :: p)) in Hch.
    cbn [tupdate]. rewrite tlookup_cons in Hch.
    rewrite !tlookup_cons, lookup_partial_alter_eq.
    destruct (ch0 !! c) as [n|]; osimpl; [|done].
    apply IH; [done|by exists ch].
Qed.

Lemma tupdate_commute (p q : list string) f g (r : node) :
  indep p q → tupdate p f (tupdate q g r) = tupdate q g (tupdate p f r).
Proof.
  revert q r. induction p as [|c p IH]; intros q r Hi;
    [by apply indep_nil_l in Hi|].
  destruct q as [|d q]; [by apply indep_nil_r in Hi|].
  destruct r as [| |ch]; [done..|]. cbn [tupdate]. f_equal.
  destruct (decide (c = d)) as [->|Hcd];
    [|by apply partial_alter_partial_alter_ne].
  apply indep_cons in Hi.
  destruct p as [|c' p]; [by apply indep_nil_l in Hi|].
  destruct q as [|d' q]; [by apply indep_nil_r in Hi|].
  rewrite !partial_alter_partial_alter_eq. apply partial_alter_ext.
  intros [n|] _; unfold compose; osimpl; [|done]. f_equal. by apply IH.
Qed.

Lemma tupdate_compose (p : list string) f g (r : node) :
  tupdate p f (tupdate p g r) = tupdate p (f ∘ g) r.
Proof.
  revert r. induction p as [|c p IH]; intros r; [done|].
  destruct r as [| |ch]; [done..|]. cbn [tupdate]. f_equal.
  rewrite partial_alter_partial_alter_eq. apply partial_alter_ext.
  intros o _. unfold compose. destruct p as [|c' p]; [done|].
  destruct o as [n|]; osimpl; [|done]. f_equal. apply IH.
Qed.

Lemma tupdate_id (p : list string) f (r : node) :
  f (tlookup p r) = tlookup p r → tupdate p f r = r.
Proof.
  revert r. induction p as [|c p IH]; intros r Hf; [done|].
  destruct r as [| |ch]; [done..|]. cbn [tupdate]. f_equal.
  rewrite tlookup_cons in Hf. apply partial_alter_id.
  destruct p as [|c' p].
  - by destruct (ch !! c).
  - destruct (ch !! c) as [n|]; osimpl; [|done]. f_equal. by apply IH.
Qed.

Lemma tupdate_ext (p : list string) f g (r : node) :
  f (tlookup p r) = g (tlookup p r) → tupdate p f r = tupdate p g r.
Proof.
  revert r. induction p as [|c p IH]; intros r Hf; [done|].
  destruct r as [| |ch]; [done..|]. cbn [tupdate]. f_equal.
  rewrite tlookup_cons in Hf. apply partial_alter_ext. intros o <-.
  destruct p as [|c' p].
  - by destruct (ch !! c).
  - destruct (ch !! c) as [n|]; osimpl; [|done]. f_equal. by apply IH.
Qed.

End TreeFacts.

(** ** Canonical path strings and their resolution *)

Module PathFacts.
Import PyStr StrAux PyStrFacts Fs FsAux FsFacts TreeAux TreeFacts.

(** *** Names *)

Lemma is_name_inv (c : string) :
  is_name c = true →
  c ≠ "" ∧ contains "/" c = false ∧ is_stay c = false ∧ is_up c = false.
Proof.
  unfold is_name, is_stay, is_up.
  intros [[[H1 H2]%andb_prop H3]%andb_prop H4]%andb_prop.
  apply negb_true_iff in H1, H2, H3, H4. rewrite H1, H3, H4.
  split_and!; try done. by apply String.eqb_neq.
Qed.

Lemma contains_sep_cons (a : ascii) (s : string) :
  contains "/" (String a s) = false → a ≠ "/"%char ∧ contains "/" s = false.
Proof.
  cbn [contains]. intros [H1 H2]%orb_false_elim. split; [|done].
  intros ->. done.
Qed.

Lemma contains_sep_app (a c : string) : contains "/" (a +:+ "/" +:+ c) = true.
Proof.
  induction a as [|ch a IH]; [done|].
  rewrite app_cons. cbn [contains]. rewrite IH. apply orb_true_r.
Qed.

(** *** [split("/")] on a canonical path string *)

Lemma split_sep_nonempty (s : string) : split_sep s ≠ [].
Proof.
  induction s as [|a s IH]; [done|]. cbn [split_sep].
  destruct (Ascii.eqb a "/"); [done|]. by destruct (split_sep s).
Qed.

Lemma split_sep_name (c s : string) (w : string) (ws : list string) :
  contains "/" c = false → split_sep s = w :: ws →
  split_sep (c +:+ s) = (c +:+ w) :: ws.
Proof.
  intros Hc Hs. induction c as [|a c IH]; [done|].
  apply contains_sep_cons in Hc as [Ha Hc].
  rewrite !app_cons. cbn [split_sep].
  apply Ascii.eqb_neq in Ha. rewrite Ha, IH by done. done.
Qed.

Lemma split_sep_path_of (cs : list string) :
  Forall (λ c, is_name c = true) cs → split_sep (path_of cs) = "" :: cs.
Proof.
  induction 1 as [|c cs Hc Hcs IH]; [done|].
  apply is_name_inv in Hc as (_ & Hc & _).
  cbn [path_of]. rewrite app_cons, app_nil_l. cbn [split_sep].
  rewrite Ascii.eqb_refl. f_equal.
  erewrite split_sep_name by done. by rewrite app_nil_r.
Qed.

Lemma path_of_app (cs ds : list string) :
  path_of (cs ++ ds) = path_of cs +:+ path_of ds.
Proof.
  induction cs as [|c cs IH]; [done|].
  cbn [path_of app]. by rewrite IH, !app_assoc.
Qed.

Lemma path_of_cons_abs (c : string) (cs : list string) :
  String.eqb (path_of (c :: cs)) "" = false ∧ is_abs (path_of (c :: cs)) = true.
Proof. done. Qed.

(** *** [os.path.dirname] of a canonical path string *)

Lemma split_last_sep_name (a c : string) :
  contains "/" c = false →
  split_last_sep (a +:+ "/" +:+ c) = (a +:+ "/", c).
Proof.
  intros Hc. induction a as [|ch a IH].
  - rewrite app_nil_l, app_cons, app_nil_l. cbn [split_last_sep].
    destruct (split_last_sep c). by rewrite Hc.
  - rewrite app_cons. cbn [split_last_sep]. rewrite IH.
    rewrite contains_sep_app.
    replace (contains "/" (String ch (a +:+ "/" +:+ c))) with true; [done|].
    cbn [contains]. by rewrite contains_sep_app, orb_true_r.
Qed.

Lemma ends_in_sep_name (c : string) :
  contains "/" c = false → ends_in "/" c = false.
Proof.
  induction c as [|a c IH]; [done|].
  intros [Ha Hc]%contains_sep_cons. cbn [ends_in].
  destruct c as [|b c]; [|by apply IH].
  cbn. apply Ascii.eqb_neq in Ha. by rewrite Ha.
Qed.

Lemma rstrip_app (chars s t : string) :
  rstrip chars (s +:+ t)
  = match rstrip chars t with
    | "" => rstrip chars s
    | r => s +:+ r
    end.
Proof.
  induction s as [|a s IH].
  - rewrite app_nil_l. by destruct (rstrip chars t).
  - rewrite app_cons. cbn [rstrip]. rewrite IH.
    destruct (rstrip chars t) as [|b r']; [done|].
    by destruct s.
Qed.

Lemma ends_in_path_of (cs : list string) :
  Forall (λ c, is_name c = true) cs → ends_in "/" (path_of cs) = false.
Proof.
  intros Hcs. destruct cs as [|c0 cs'] using rev_ind; [done|].
  apply Forall_app in Hcs as [_ Hc]. rewrite Forall_singleton in Hc.
  apply is_name_inv in Hc as (Hne & Hc & _).
  rewrite path_of_app. cbn [path_of]. rewrite app_nil_r.
  rewrite <-app_assoc. rewrite ends_in_app by done.
  by apply ends_in_sep_name.
Qed.

Lemma dirname_path_of (cs : list string) (c : string) :
  Forall (λ c, is_name c = true) (cs ++ [c]) →
  PosixPath.dirname (path_of (cs ++ [c]))
  = match cs with [] => "/" | _ => path_of cs end.
Proof.
  intros [Hcs Hc]%Forall_app. rewrite Forall_singleton in Hc.
  apply is_name_inv in Hc as (_ & Hc & _).
  unfold PosixPath.dirname, PosixPath.split.
  rewrite path_of_app. cbn [path_of]. rewrite app_nil_r.
  rewrite split_last_sep_name by done.
  destruct cs as [|c0 cs]; [done|]. cbn [fst].
  assert (String.eqb (path_of (c0 :: cs) +:+ "/") "" = false) as -> by done.
  assert (PosixPath.all_sep (path_of (c0 :: cs) +:+ "/") = false) as ->.
  { apply Forall_cons in Hcs as [Hc0 _].
    apply is_name_inv in Hc0 as (Hne & Hc0 & _).
    cbn [path_of]. destruct c0 as [|a c0]; [done|].
    apply contains_sep_cons in Hc0 as [Ha%Ascii.eqb_neq _].
    rewrite !app_cons, app_nil_l, !app_cons. cbn [PosixPath.all_sep].
    by rewrite Ha, andb_false_r. }
  cbn [negb andb]. rewrite rstrip_app.
  replace (rstrip "/" "/") with "" by done.
  apply rstrip_id. by apply ends_in_path_of.
Qed.

(** *** Walking a canonical path *)

Section Walk.
Context (r : node).

Lemma tlookup_snoc (cur : list string) (c : string) (ch : gmap string node) :
  tlookup cur r = Some (Dir ch) → tlookup (cur ++ [c]) r = ch !! c.
Proof.
  intros Hcur. rewrite tlookup_app, Hcur. osimpl. rewrite tlookup_cons.
  by destruct (ch !! c).
Qed.

(** The path leads to a node that is not a symlink (or the last symlink is
    not to be followed): that node is found. *)
Lemma walk_found (f : nat) (fl : bool) (comps cur : list string) (x : node) :
  Forall (λ c, is_name c = true) comps → comps ≠ [] →
  tlookup (cur ++ comps) r = Some x →
  is_link_node x = false ∨ fl = false →
  walk f r fl cur comps = Found (cur ++ comps) x.
Proof.
  intros Hn. revert cur. induction Hn as [|c rest Hc Hrest IH]; intros cur;
    [done|].
  intros _ Hx Hl. apply is_name_inv in Hc as (_ & _ & Hs & Hu).
  rewrite walk_cons, Hs, Hu.
  assert (cur ++ c :: rest = (cur ++ [c]) ++ rest) as Happ
    by by rewrite <-List.app_assoc.
  rewrite Happ in *. rewrite tlookup_app in Hx.
  destruct (tlookup cur r) as [[| |ch]|] eqn:Hcur;
    try by rewrite tlookup_app, Hcur in Hx.
  rewrite (tlookup_snoc cur c ch Hcur) in Hx.
  destruct (ch !! c) as [n|] eqn:Hch; [|done]. osimpl.
  destruct n as [b|t|ch'].
  - destruct rest; [|done]. injection Hx as <-. by rewrite (List.app_nil_r (cur ++ [c])).
  - destruct rest; [|done]. injection Hx as <-. rewrite (List.app_nil_r (cur ++ [c])).
    destruct Hl as [Hl| ->]; [discriminate Hl|done].
  - destruct rest as [|c' rest].
    + injection Hx as <-. rewrite (List.app_nil_r (cur ++ [c])), walk_nil.
      by rewrite (tlookup_snoc cur c ch Hcur), Hch.
    + apply IH; [done| |done].
      by rewrite tlookup_app, (tlookup_snoc cur c ch Hcur), Hch.
Qed.

(** The path leads to a directory that has no entry of the last name. *)
Lemma walk_absent (f : nat) (fl : bool) (init cur : list string) (c : string) :
  Forall (λ c, is_name c = true) (init ++ [c]) →
  is_dir_at r (cur ++ init) →
  tlookup (cur ++ init ++ [c]) r = None →
  walk f r fl cur (init ++ [c]) = Absent (cur ++ init) c.
Proof.
  revert cur. induction init as [|a init IH]; intros cur Hn [ch Hdir] Hnone.
  - cbn [app] in Hn. rewrite Forall_singleton in Hn.
    apply is_name_inv in Hn as (_ & _ & Hs & Hu).
    rewrite (List.app_nil_r cur) in *. cbn [app] in *.
    rewrite walk_cons, Hs, Hu, Hdir.
    rewrite (tlookup_snoc cur c ch Hdir) in Hnone. by rewrite Hnone.
  - apply Forall_cons in Hn as [Ha Hn].
    apply is_name_inv in Ha as (_ & _ & Hs & Hu).
    assert (cur ++ a :: init = (cur ++ [a]) ++ init) as Happ
      by by rewrite <-List.app_assoc.
    assert (cur ++ (a :: init) ++ [c] = (cur ++ [a]) ++ init ++ [c]) as Happ'
      by by rewrite <-List.app_assoc.
    rewrite Happ in *. rewrite Happ' in Hnone.
    cbn [app]. rewrite walk_cons, Hs, Hu.
    rewrite tlookup_app in Hdir.
    destruct (tlookup cur r) as [[| |ch0]|] eqn:Hcur;
      try by rewrite tlookup_app, Hcur in Hdir.
    rewrite (tlookup_snoc cur a ch0 Hcur) in Hdir.
    destruct (ch0 !! a) as [n|] eqn:Hch; [|done]. osimpl.
    destruct n as [b|t|ch']; try by destruct init.
    apply IH; [done| |done].
    exists ch. by rewrite tlookup_app, (tlookup_snoc cur a ch0 Hcur), Hch.
Qed.


End Walk.

(** *** Resolving a canonical path string *)

Lemma resolve_found (w : world) (fl : bool) (s : list string) (x : node) :
  Forall (λ c, is_name c = true) s → s ≠ [] →
  tlookup s (root w) = Some x →
  is_link_node x = false ∨ fl = false →
  resolve w fl (path_of s) = Found s x.
Proof.
  intros Hn Hs Hx Hl. unfold resolve. destruct s as [|c s]; [done|].
  destruct (path_of_cons_abs c s) as [-> ->].
  rewrite split_sep_path_of, walk_cons by done. cbn [is_stay String.eqb orb].
  by apply (walk_found _ _ _ _ []).
Qed.

Lemma resolve_absent (w : world) (fl : bool) (p : list string) (c : string) :
  Forall (λ c, is_name c = true) (p ++ [c]) →
  is_dir_at (root w) p → tlookup (p ++ [c]) (root w) = None →
  resolve w fl (path_of (p ++ [c])) = Absent p c.
Proof.
  intros Hn Hd Hx. unfold resolve.
  assert (∃ c' s', p ++ [c] = c' :: s') as (c' & s' & Heq)
    by (destruct p; by eexists _, _).
  rewrite split_sep_path_of by done. rewrite Heq.
  destruct (path_of_cons_abs c' s') as [-> ->]. rewrite <-Heq.
  rewrite walk_cons. cbn [is_stay String.eqb orb].
  by apply (walk_absent _ _ _ _ []).
Qed.


(** [stat] on the directory of a canonical path string. *)
Lemma resolve_dirname (w : world) (s : list string) (ch : gmap string node) :
  Forall (λ c, is_name c = true) s → s ≠ [] →
  tlookup (removelast s) (root w) = Some (Dir ch) →
  resolve w true (PosixPath.dirname (path_of s)) = Found (removelast s) (Dir ch).
Proof.
  intros Hn Hs Hx. destruct (exists_last Hs) as (p & c & ->).
  rewrite removelast_last in *. rewrite dirname_path_of by done.
  destruct p as [|c0 p].
  - cbn in Hx. injection Hx as Hx. unfold resolve. cbn [String.eqb is_abs startswith Ascii.eqb].
    change (split_sep "/") with [""; ""].
    rewrite !walk_cons. cbn [is_stay String.eqb orb].
    rewrite walk_nil. cbn [tlookup]. by rewrite Hx.
  - apply Forall_app in Hn as [Hn _]. apply resolve_found; auto.
Qed.

End PathFacts.

(** ** The second loop on a symlink *)

Module TaskFacts.
Import PyStr Fs FsAux FsFacts Program ProgramAux ProgramFacts.

(** Bring the action applied to [w] into the form [(m ≫= k) w] with an
    atomic [m], and run the atoms that only read or print. *)
Ltac mnorm :=
  repeat first
    [ rewrite bind_assoc | rewrite bind_ret | rewrite bind_gets
    | rewrite bind_print | rewrite bind_raise_l ].


Lemma os_readlink_link (w : world) (p : string) (c : list string) (t : string) :
  resolve w false p = Found c (Link t) → os_readlink p w = (w, Ok t).
Proof. unfold os_readlink. by intros ->. Qed.

Lemma path_islink_link (w : world) (p : string) (c : list string) (t : string) :
  resolve w false p = Found c (Link t) → path_islink w p = true.
Proof. unfold path_islink. by intros ->. Qed.


(** [src] is a symlink to something else: the error line is printed, then
    [os.symlink] finds [src] in its way. *)
Lemma add_task_wrong_link (w : world) (src dst : string) (is_dir : bool)
    (c : list string) (t : string) :
  resolve w false src = Found c (Link t) → t ≠ dst →
  add_task (src, dst, is_dir) w
  = (say [ErrorWrongSymlink src] w, Raise FileExistsError).
Proof.
  intros Hl Hne. apply String.eqb_neq in Hne.
  unfold add_task, os_path_islink. mnorm.
  rewrite (path_islink_link _ _ _ _ Hl). mnorm.
  erewrite bind_ok; [|by eapply os_readlink_link].
  rewrite Hne. mnorm.
  apply bind_raise. unfold os_symlink. by rewrite resolve_say, Hl.
Qed.


End TaskFacts.

(** ** Moving an entry to the storage and back, on the tree *)

Module RelocateFacts.
Import PyStr Fs FsAux FsFacts TreeAux TreeFacts.

Lemma indep_ne_nil_l (p q : list string) : indep p q → p ≠ [].
Proof. intros Hi ->. by apply indep_nil_l in Hi. Qed.

Lemma indep_ne_nil_r (p q : list string) : indep p q → q ≠ [].
Proof. intros Hi ->. by apply indep_nil_r in Hi. Qed.

Lemma indep_removelast (p q : list string) :
  indep p q → ¬ p `prefix_of` removelast q.
Proof.
  intros [H1 _] H. apply H1. etrans; [done|].
  destruct q as [|c q] using rev_ind; [done|].
  rewrite removelast_last. by apply prefix_app_r.
Qed.

Lemma not_prefix_removelast (p : list string) :
  p ≠ [] → ¬ p `prefix_of` removelast p.
Proof.
  intros Hp H. destruct (exists_last Hp) as (q & c & ->).
  rewrite removelast_last in H. apply prefix_length in H.
  rewrite length_app in H. simpl in H. lia.
Qed.

Lemma link_in_eq (s d : list string) (r x : node) :
  indep s d → tlookup s r = Some x →
  link_in s d r
  = tupdate s (λ _, Some (Link (path_of d))) (tupdate d (λ _, Some x) r).
Proof.
  intros Hi Hx. unfold link_in. rewrite Hx.
  rewrite !tinsert_tupdate, tdelete_tupdate
    by eauto using indep_ne_nil_l, indep_ne_nil_r.
  rewrite (tupdate_commute d s) by by apply indep_sym.
  by rewrite tupdate_compose.
Qed.

Lemma unlink_in_eq (s d : list string) (r x : node) :
  indep s d → tlookup d r = Some x →
  unlink_in s d r = tupdate s (λ _, Some x) (tupdate d (λ _, None) r).
Proof.
  intros Hi Hx. unfold unlink_in. rewrite Hx.
  rewrite !tinsert_tupdate, !tdelete_tupdate
    by eauto using indep_ne_nil_l, indep_ne_nil_r.
  rewrite (tupdate_commute d s) by by apply indep_sym.
  by rewrite tupdate_compose.
Qed.

Lemma link_in_none (s d : list string) (r : node) :
  tlookup s r = None → link_in s d r = r.
Proof. unfold link_in. by intros ->. Qed.

(** *** What the two operations leave alone *)

Lemma tlookup_link_in_indep (p s d : list string) (r : node) :
  indep s d → indep p s → indep p d →
  tlookup p (link_in s d r) = tlookup p r.
Proof.
  intros Hi Hs Hd. destruct (tlookup s r) as [x|] eqn:Hx.
  - rewrite (link_in_eq s d r x) by done.
    by rewrite !tlookup_tupdate_indep.
  - by rewrite link_in_none.
Qed.

Lemma is_dir_at_link_in (p s d : list string) (r : node) :
  indep s d → ¬ s `prefix_of` p → ¬ d `prefix_of` p →
  is_dir_at r p → is_dir_at (link_in s d r) p.
Proof.
  intros Hi Hs Hd Hp. destruct (tlookup s r) as [x|] eqn:Hx.
  - rewrite (link_in_eq s d r x) by done.
    by do 2 (apply is_dir_at_tupdate; [done|]).
  - by rewrite link_in_none.
Qed.


Lemma is_dir_at_unlink_in (p s d : list string) (r : node) :
  s ≠ [] → ¬ s `prefix_of` p → ¬ d `prefix_of` p →
  is_dir_at r p → is_dir_at (unlink_in s d r) p.
Proof.
  intros Hs0 Hs Hd Hp. unfold unlink_in.
  destruct (tlookup d r) as [x|];
    rewrite ?tinsert_tupdate, !tdelete_tupdate by done;
    by repeat (apply is_dir_at_tupdate; [done|]).
Qed.

(** *** What they establish *)

Section OneTask.
Context (s d : list string) (r x : node).
Hypothesis Hi : indep s d.

Lemma tlookup_link_in_src :
  tlookup s r = Some x →
  tlookup s (link_in s d r) = Some (Link (path_of d)).
Proof.
  intros Hx. rewrite (link_in_eq s d r x) by done.
  rewrite tlookup_tupdate_eq; [done|by eapply indep_ne_nil_l|].
  apply is_dir_at_tupdate; [by apply indep_removelast, indep_sym|].
  eapply tlookup_parent; [by eapply indep_ne_nil_l|done].
Qed.

Lemma tlookup_link_in_dst :
  tlookup s r = Some x → is_dir_at r (removelast d) →
  tlookup d (link_in s d r) = Some x.
Proof.
  intros Hx Hp. rewrite (link_in_eq s d r x) by done.
  rewrite tlookup_tupdate_indep by by apply indep_sym.
  rewrite tlookup_tupdate_eq; [done|by eapply indep_ne_nil_r|done].
Qed.

Lemma tlookup_unlink_in_src :
  tlookup d r = Some x → is_dir_at r (removelast s) →
  tlookup s (unlink_in s d r) = Some x.
Proof.
  intros Hx Hp. rewrite (unlink_in_eq s d r x) by done.
  rewrite tlookup_tupdate_eq; [done|by eapply indep_ne_nil_l|].
  apply is_dir_at_tupdate; [by apply indep_removelast, indep_sym|done].
Qed.

Lemma tlookup_unlink_in_dst :
  tlookup d r = Some x →
  tlookup d (unlink_in s d r) = None.
Proof.
  intros Hx. rewrite (unlink_in_eq s d r x) by done.
  rewrite tlookup_tupdate_indep by by apply indep_sym.
  rewrite tlookup_tupdate_eq; [done|by eapply indep_ne_nil_r|].
  eapply tlookup_parent; [by eapply indep_ne_nil_r|done].
Qed.


End OneTask.

(** Two moves that touch unrelated paths can be swapped. *)
Lemma link_in_commute (s1 d1 s2 d2 : list string) (r : node) :
  indep s1 d1 → indep s2 d2 →
  indep s1 s2 → indep s1 d2 → indep d1 s2 → indep d1 d2 →
  link_in s1 d1 (link_in s2 d2 r) = link_in s2 d2 (link_in s1 d1 r).
Proof.
  intros H1 H2 Hss Hsd Hds Hdd.
  destruct (tlookup s1 r) as [x1|] eqn:Hx1;
    destruct (tlookup s2 r) as [x2|] eqn:Hx2.
  - assert (tlookup s1 (link_in s2 d2 r) = Some x1) as Hx1'
      by by rewrite tlookup_link_in_indep.
    assert (tlookup s2 (link_in s1 d1 r) = Some x2) as Hx2'
      by (rewrite tlookup_link_in_indep; first [done|by apply indep_sym]).
    rewrite (link_in_eq s1 d1 _ x1 H1 Hx1'), (link_in_eq s2 d2 _ x2 H2 Hx2').
    rewrite (link_in_eq s1 d1 _ x1 H1 Hx1), (link_in_eq s2 d2 _ x2 H2 Hx2).
    rewrite (tupdate_commute d1 s2), (tupdate_commute d1 d2) by done.
    by rewrite (tupdate_commute s1 s2), (tupdate_commute s1 d2).
  - rewrite (link_in_none s2 d2 r) by done.
    rewrite (link_in_none s2 d2); [done|].
    rewrite tlookup_link_in_indep; first [done|by apply indep_sym].
  - rewrite (link_in_none s1 d1 r) by done.
    rewrite (link_in_none s1 d1); [done|].
    by rewrite tlookup_link_in_indep.
  - by rewrite (link_in_none s1 d1 r), (link_in_none s2 d2 r),
      (link_in_none s1 d1 r).
Qed.

End RelocateFacts.

(** ** One task of each pass on canonical paths *)

Module StepFacts.
Import PyStr Fs FsAux FsFacts Program ProgramAux ProgramFacts TaskFacts.
Import TreeAux TreeFacts PathFacts RelocateFacts PassAux.

#[local] Opaque resolve.

(** *** Worlds *)

Lemma after_id (w : world) : after (root w) 0 [] w = w.
Proof. destruct w. unfold after. simpl. by rewrite List.app_nil_r. Qed.

Lemma after_after (r1 r2 : node) (k1 k2 : nat) (m1 m2 : list message)
    (w : world) :
  after r2 k2 m2 (after r1 k1 m1 w) = after r2 (k1 + k2) (m1 ++ m2) w.
Proof. unfold after. simpl. by rewrite drop_drop, List.app_assoc. Qed.

Lemma say_after (ms : list message) (r : node) (k : nat) (m : list message)
    (w : world) :
  say ms (after r k m w) = after r k (m ++ ms) w.
Proof. unfold after, say. simpl. by rewrite List.app_assoc. Qed.

Lemma say_as_after (ms : list message) (w : world) :
  say ms w = after (root w) 0 ms w.
Proof. done. Qed.

Lemma set_root_after (r' r : node) (k : nat) (m : list message) (w : world) :
  set_root r' (after r k m w) = after r' k m w.
Proof. done. Qed.

Lemma set_root_as_after (r' : node) (w : world) :
  set_root r' w = after r' 0 [] w.
Proof. unfold after, set_root. simpl. by rewrite List.app_nil_r. Qed.

Lemma accepting_drop (k : nat) (l : list string) :
  Forall (λ l, accepting l = true) l →
  Forall (λ l, accepting l = true) (list.drop k l).
Proof. apply Forall_drop. Qed.

Lemma bind_print_end (msg : message) (w : world) :
  print msg w = (say [msg] w, Ok tt).
Proof. done. Qed.

(** *** The queries and calls on a path that is found or absent *)

Section Calls.
Context (w : world) (p : string) (c : list string) (x : node).

Lemma path_islink_found :
  resolve w false p = Found c x → path_islink w p = is_link_node x.
Proof. unfold path_islink. intros ->. by destruct x. Qed.

Lemma path_exists_found :
  resolve w true p = Found c x → path_exists w p = true.
Proof. unfold path_exists. by intros ->. Qed.

Lemma path_isdir_found :
  resolve w true p = Found c x → path_isdir w p = is_dir_node x.
Proof. unfold path_isdir. intros ->. by destruct x. Qed.

Lemma path_isfile_found :
  resolve w true p = Found c x → path_isfile w p = is_file_node x.
Proof. unfold path_isfile. intros ->. by destruct x. Qed.

Lemma os_stat_dev_found :
  resolve w true p = Found c x →
  os_stat_dev p w = (w, Ok (dev_of (mounts w) c)).
Proof. unfold os_stat_dev. by intros ->. Qed.

Lemma os_remove_found :
  resolve w false p = Found c x → is_dir_node x = false →
  os_remove p w = (set_root (tdelete c (root w)) w, Ok tt).
Proof. unfold os_remove. intros ->. by destruct x. Qed.

End Calls.

Section CallsAbsent.
Context (w : world) (p : string) (parent : list string) (name : string).

Lemma path_exists_absent :
  resolve w true p = Absent parent name → path_exists w p = false.
Proof. unfold path_exists. by intros ->. Qed.

Lemma path_isdir_absent :
  resolve w true p = Absent parent name → path_isdir w p = false.
Proof. unfold path_isdir. by intros ->. Qed.

Lemma os_symlink_absent (target : string) :
  resolve w false p = Absent parent name →
  os_symlink target p w
  = (set_root (tinsert (parent ++ [name]) (Link target) (root w)) w, Ok tt).
Proof. unfold os_symlink. by intros ->. Qed.

Lemma os_rename_absent (src : string) (s : list string) (n : node) :
  resolve w false src = Found s n →
  resolve w false p = Absent parent name →
  ¬ s `prefix_of` parent ++ [name] →
  os_rename src p w = (move_node s (parent ++ [name]) n w, Ok tt).
Proof.
  unfold os_rename. intros -> -> Hp. by rewrite bool_decide_eq_false_2.
Qed.

Lemma shutil_move_absent (src : string) (s : list string) (n : node) :
  resolve w false src = Found s n →
  resolve w false p = Absent parent name →
  resolve w true p = Absent parent name →
  ¬ s `prefix_of` parent ++ [name] →
  shutil_move src p w = (move_node s (parent ++ [name]) n w, Ok tt).
Proof.
  intros Hs Hp Hp' Hn. unfold shutil_move, os_path_isdir.
  unfold bind at 1. unfold gets at 1.
  rewrite (path_isdir_absent Hp'). exact (os_rename_absent src s n Hs Hp Hn).
Qed.

End CallsAbsent.

(** [os.makedirs] on a directory that is there. *)
Lemma os_makedirs_isdir (w : world) (p : string) :
  path_isdir w p = true → os_makedirs p w = (w, Ok tt).
Proof.
  intros H. unfold os_makedirs, os_path_isdir.
  unfold bind, gets. by rewrite H.
Qed.

(** [confirm_move] when the answers still to be read are all "y". *)
Lemma confirm_move_accepted (w : world) (src dst : string)
    (c c' : list string) (x x' : node) :
  resolve w true src = Found c x →
  resolve w true (PosixPath.dirname dst) = Found c' x' →
  Forall (λ l, accepting l = true) (stdin w) → stdin w ≠ [] →
  ∃ k msgs, k ≤ 1
    ∧ confirm_move src dst w = (after (root w) k msgs w, Ok true).
Proof.
  intros Hs Hd Hacc Hin. unfold confirm_move, is_same_device. mnorm.
  erewrite bind_ok; [|exact (os_stat_dev_found w src c x Hs)]. mnorm.
  erewrite bind_ok; [|exact (os_stat_dev_found w _ c' x' Hd)]. mnorm.
  destruct (dev_of (mounts w) c =? dev_of (mounts w) c'); cbn [negb].
  - exists 0, []. split; [lia|]. by rewrite after_id.
  - exists 1, [PromptCrossDevice src dst]. split; [lia|]. mnorm.
    destruct (stdin w) as [|l rest] eqn:Hl; [done|].
    apply Forall_cons in Hacc as [Hacc _].
    erewrite bind_ok; [|by unfold input; cbn [stdin say]; rewrite Hl].
    unfold accepting in Hacc. rewrite Hacc. unfold after. by rewrite Hl.
Qed.

(** *** The addition of a task whose [src] is a plain entry *)

Lemma add_task_fresh (w : world) (s d : list string) (is_dir : bool)
    (x : node) :
  Forall (λ c, is_name c = true) s → Forall (λ c, is_name c = true) d →
  indep s d →
  tlookup s (root w) = Some x → is_link_node x = false →
  tlookup d (root w) = None → is_dir_at (root w) (removelast d) →
  Forall (λ l, accepting l = true) (stdin w) → stdin w ≠ [] →
  ∃ k msgs, k ≤ 1
    ∧ add_task (path_of s, path_of d, is_dir) w
      = (after (link_in s d (root w)) k msgs w, Ok tt).
Proof.
  intros Hs Hd Hi Hx Hnl Hnone Hpar Hacc Hin.
  assert (s ≠ []) as Hs0 by by eapply indep_ne_nil_l.
  assert (d ≠ []) as Hd0 by by eapply indep_ne_nil_r.
  assert (∀ w' fl, root w' = root w →
            resolve w' fl (path_of s) = Found s x) as Hrs
    by (intros w' fl Hw'; apply resolve_found; rewrite ?Hw'; auto).
  assert (is_dir_at (root w) (removelast s)) as Hspar
    by by eapply tlookup_parent.
  assert (¬ d `prefix_of` removelast s) as Hds
    by by apply indep_removelast, indep_sym.
  destruct (exists_last Hd0) as (dp & dc & ->).
  destruct (exists_last Hs0) as (sp & sc & ->).
  rewrite removelast_last in Hpar, Hspar, Hds.
  assert (∀ w' fl, root w' = root w →
            resolve w' fl (path_of (dp ++ [dc])) = Absent dp dc) as Hrd
    by (intros w' fl Hw'; apply resolve_absent; rewrite ?Hw'; auto).
  destruct Hpar as [ch Hpar].
  assert (resolve w true (PosixPath.dirname (path_of (dp ++ [dc])))
          = Found dp (Dir ch)) as Hrp.
  { rewrite <-(removelast_last dp dc) at 2.
    apply resolve_dirname; [done..|]. by rewrite removelast_last. }
  destruct (confirm_move_accepted w (path_of (sp ++ [sc]))
              (path_of (dp ++ [dc])) _ _ _ _
              (Hrs w true eq_refl) Hrp Hacc Hin) as (k & msgs & Hk & Hconfirm).
  exists k,
    (msgs ++ [LinkCreated (path_of (sp ++ [sc])) (path_of (dp ++ [dc]))]).
  split; [done|].
  unfold add_task, os_path_islink, os_path_exists. mnorm.
  rewrite (path_islink_found w _ _ x (Hrs w false eq_refl)), Hnl. mnorm.
  rewrite (path_exists_found w _ _ x (Hrs w true eq_refl)). mnorm.
  rewrite (path_exists_absent w _ dp dc (Hrd w true eq_refl)). mnorm.
  erewrite bind_ok; [|exact Hconfirm]. cbn [negb]. mnorm.
  set (w1 := after (root w) k msgs w).
  erewrite bind_ok;
    [|apply (shutil_move_absent w1 _ dp dc (path_of (sp ++ [sc])) _ x
               (Hrs w1 false eq_refl) (Hrd w1 false eq_refl)
               (Hrd w1 true eq_refl)); apply Hi].
  mnorm. unfold move_node.
  set (r2 := tinsert (dp ++ [dc]) x (tdelete (sp ++ [sc]) (root w1))).
  assert (resolve (set_root r2 w1) false (path_of (sp ++ [sc]))
          = Absent sp sc) as Hrs2.
  { apply resolve_absent; [done| |]; cbn [root set_root]; unfold r2;
      rewrite tinsert_tupdate, tdelete_tupdate by done.
    - apply is_dir_at_tupdate; [done|].
      apply is_dir_at_tupdate; [|done].
      intros H%prefix_length. rewrite length_app in H. simpl in H. lia.
    - rewrite tlookup_tupdate_indep by done.
      rewrite tlookup_tupdate_eq; [done..|].
      by rewrite removelast_last. }
  erewrite bind_ok; [|exact (os_symlink_absent _ _ sp sc _ Hrs2)].
  rewrite bind_print_end. unfold w1, r2.
  rewrite set_root_after, set_root_after, say_after.
  unfold link_in. cbn [root after]. by rewrite Hx.
Qed.

(** *** The removal of a task whose [src] is the symlink to [dst] *)

Lemma remove_task_linked (w : world) (s d : list string) (is_dir : bool)
    (x : node) :
  Forall (λ c, is_name c = true) s → Forall (λ c, is_name c = true) d →
  indep s d →
  tlookup s (root w) = Some (Link (path_of d)) →
  tlookup d (root w) = Some x → is_link_node x = false →
  Forall (λ l, accepting l = true) (stdin w) → stdin w ≠ [] →
  ∃ k msgs, k ≤ 1
    ∧ remove_task (path_of s, path_of d, is_dir) w
      = (after (unlink_in s d (root w)) k msgs w, Ok tt).
Proof.
  intros Hs Hd Hi Hl Hx Hnl Hacc Hin.
  assert (s ≠ []) as Hs0 by by eapply indep_ne_nil_l.
  assert (d ≠ []) as Hd0 by by eapply indep_ne_nil_r.
  assert (is_dir_at (root w) (removelast s)) as Hspar
    by by eapply tlookup_parent.
  assert (is_dir_at (root w) (removelast d)) as Hdpar
    by by eapply tlookup_parent.
  assert (¬ d `prefix_of` removelast s) as Hds
    by by apply indep_removelast, indep_sym.
  assert (¬ s `prefix_of` removelast d) as Hsd
    by by apply indep_removelast.
  assert (resolve w false (path_of s) = Found s (Link (path_of d))) as Hrl
    by (apply resolve_found; auto).
  destruct (exists_last Hd0) as (dp & dc & ->).
  destruct (exists_last Hs0) as (sp & sc & ->).
  rewrite removelast_last in Hspar, Hdpar, Hds, Hsd.
  set (r1 := tdelete (sp ++ [sc]) (root w)).
  assert (tlookup (dp ++ [dc]) r1 = Some x) as Hx1.
  { unfold r1. rewrite tdelete_tupdate, tlookup_tupdate_indep; [done|].
    by apply indep_sym. }
  assert (tlookup (sp ++ [sc]) r1 = None) as Hs1.
  { unfold r1. rewrite tdelete_tupdate, tlookup_tupdate_eq; [done..|].
    by rewrite removelast_last. }
  assert (is_dir_at r1 sp) as Hsp1.
  { unfold r1. rewrite tdelete_tupdate. apply is_dir_at_tupdate; [|done].
    intros H%prefix_length. rewrite length_app in H. simpl in H. lia. }
  assert (∀ w' fl, root w' = r1 →
            resolve w' fl (path_of (dp ++ [dc])) = Found (dp ++ [dc]) x) as Hrd
    by (intros w' fl Hw'; apply resolve_found; rewrite ?Hw'; auto).
  assert (∀ w' fl, root w' = r1 →
            resolve w' fl (path_of (sp ++ [sc])) = Absent sp sc) as Hrs
    by (intros w' fl Hw'; apply resolve_absent; rewrite ?Hw'; auto).
  destruct Hsp1 as [ch Hsp1].
  assert (∀ w', root w' = r1 →
            resolve w' true (PosixPath.dirname (path_of (sp ++ [sc])))
            = Found sp (Dir ch)) as Hrp.
  { intros w' Hw'. rewrite <-(removelast_last sp sc) at 2.
    apply resolve_dirname; [done..|]. by rewrite removelast_last, Hw'. }
  set (w1 := say [LinkRemoved (path_of (sp ++ [sc])) (path_of (dp ++ [dc]))]
               (set_root r1 w)).
  destruct (confirm_move_accepted w1 (path_of (dp ++ [dc]))
              (path_of (sp ++ [sc])) _ _ _ _
              (Hrd w1 true eq_refl) (Hrp w1 eq_refl) Hacc Hin)
    as (k & msgs & Hk & Hconfirm).
  exists k,
    ([LinkRemoved (path_of (sp ++ [sc])) (path_of (dp ++ [dc]))] ++ msgs).
  split; [done|].
  unfold remove_task, os_path_islink. mnorm.
  rewrite (path_islink_found w _ _ _ Hrl). cbn [is_link_node]. mnorm.
  erewrite bind_ok; [|exact (os_readlink_link _ _ _ _ Hrl)]. mnorm.
  rewrite String.eqb_refl.
  erewrite bind_ok; [|exact (os_remove_found w _ _ _ Hrl eq_refl)].
  mnorm. fold r1. fold w1. unfold os_path_exists. mnorm.
  rewrite (path_exists_found w1 _ _ x (Hrd w1 true eq_refl)). mnorm.
  erewrite bind_ok; [|exact Hconfirm]. cbn [negb]. mnorm.
  set (w2 := after (root w1) k msgs w1).
  erewrite bind_ok;
    [|apply os_makedirs_isdir;
      by rewrite (path_isdir_found w2 _ _ _ (Hrp w2 eq_refl))].
  mnorm.
  erewrite bind_ok;
    [|apply (shutil_move_absent w2 _ sp sc (path_of (dp ++ [dc])) _ x
               (Hrd w2 false eq_refl) (Hrs w2 false eq_refl)
               (Hrs w2 true eq_refl)); apply Hi].
  mnorm. unfold move_node, os_path_isdir. mnorm.
  set (r3 := tinsert (sp ++ [sc]) x (tdelete (dp ++ [dc]) (root w2))).
  assert (r3 = unlink_in (sp ++ [sc]) (dp ++ [dc]) (root w)) as Hr3
    by (unfold unlink_in; by rewrite Hx).
  assert (resolve (set_root r3 w2) true (path_of (dp ++ [dc]))
          = Absent dp dc) as Hrd3.
  { apply resolve_absent; [done| |]; cbn [root set_root]; rewrite Hr3.
    - apply is_dir_at_unlink_in; [done..| |done].
      intros H%prefix_length. rewrite length_app in H. simpl in H. lia.
    - by eapply tlookup_unlink_in_dst. }
  rewrite (path_isdir_absent _ _ _ _ Hrd3). unfold ret.
  unfold w2, w1. rewrite Hr3. clear.
  destruct w. unfold after, say, set_root.
  cbn [root cwd mounts stdin stdout]. by rewrite <-List.app_assoc.
Qed.

End StepFacts.

(** ** [normalize_path] and the derivation of [src] and [dst] *)

Module NormalizeFacts.
Import PyStr StrAux PyStrFacts Program.

Lemma escape_subst (s : string) :
  escape s = subst_char "/" "-" (subst_char "-" "--" s).
Proof. unfold escape. by rewrite !replace_char. Qed.

Lemma escape_app (s t : string) : escape (s +:+ t) = escape s +:+ escape t.
Proof. by rewrite !escape_subst, !subst_char_app. Qed.

Lemma escape_cons (c : ascii) (s : string) :
  escape (String c s)
  = (if decide (c = "-"%char) then "--"
     else if decide (c = "/"%char) then "-" else String c "") +:+ escape s.
Proof.
  rewrite !escape_subst. cbn [subst_char].
  rewrite subst_char_app. f_equal.
  repeat case_decide; subst; try done.
  cbn [subst_char]. by case_decide.
Qed.

Lemma escape_nil_inv (s : string) : escape s = "" → s = "".
Proof.
  destruct s as [|c s]; [done|]. rewrite escape_cons.
  repeat case_decide; by rewrite !app_cons.
Qed.

Lemma unescape_dash_dash (s : string) :
  unescape (String "-" (String "-" s)) = String "-" (unescape s).
Proof. reflexivity. Qed.

Lemma unescape_dash_end : unescape "-" = "/".
Proof. reflexivity. Qed.

Lemma unescape_dash_other (d : ascii) (s : string) :
  d ≠ "-"%char →
  unescape (String "-" (String d s)) = String "/" (unescape (String d s)).
Proof.
  intros Hd. cbn [unescape]. rewrite Ascii.eqb_refl.
  destruct d as [[] [] [] [] [] [] [] []]; done.
Qed.

Lemma unescape_other (c : ascii) (s : string) :
  c ≠ "-"%char → unescape (String c s) = String c (unescape s).
Proof.
  intros Hc%Ascii.eqb_neq. cbn [unescape]. by rewrite Hc.
Qed.

(** On clean separators the escaping can be read back. *)
Lemma unescape_escape (s : string) :
  clean_separators s = true → unescape (escape s) = s.
Proof.
  induction s as [|c s IH]; [done|].
  cbn [clean_separators]. intros [Hc Hs]%andb_prop.
  rewrite escape_cons. specialize (IH Hs).
  case_decide as Hdash; [|case_decide as Hsep].
  - subst c. rewrite !app_cons, app_nil_l, unescape_dash_dash. by rewrite IH.
  - subst c. rewrite !app_cons, app_nil_l.
    destruct s as [|d s]; [done|].
    rewrite Ascii.eqb_refl in Hc. apply andb_prop in Hc as [Hd1 Hd2].
    apply negb_true_iff, Ascii.eqb_neq in Hd1, Hd2.
    rewrite escape_cons in *. do 2 (case_decide; [done|]).
    rewrite app_cons, app_nil_l in *.
    by rewrite unescape_dash_other, IH.
  - rewrite app_cons, app_nil_l, unescape_other by done. by rewrite IH.
Qed.

Lemma ends_in_escape (s : string) : ends_in "-" (escape s) = ends_in "-/" s.
Proof.
  induction s as [|c s IH]; [done|].
  rewrite escape_cons. destruct s as [|d s].
  - repeat case_decide; subst; try done.
    rewrite app_cons, !app_nil_l. cbn.
    apply Ascii.eqb_neq in H, H0. by rewrite H, H0.
  - rewrite ends_in_app, IH; [done|].
    intros ?%escape_nil_inv. done.
Qed.

(** On a plain path the backing name is the escaped path. *)
Lemma safe_name_plain (HOME p : string) :
  plain_path p = true → safe_name HOME p = escape p.
Proof.
  unfold plain_path. intros [[Ht%negb_true_iff _]%andb_prop He%negb_true_iff]%andb_prop.
  unfold safe_name, normalize_path.
  rewrite (replace_absent "HOME" HOME p) by done.
  fold (escape p). apply rstrip_id. by rewrite ends_in_escape.
Qed.

(** The token has no proper overlap with itself: an occurrence is replaced
    wherever it stands. *)
Lemma replace_token_app (HOME a b : string) :
  replace "HOME" HOME (a +:+ "HOME" +:+ b)
  = replace "HOME" HOME a +:+ HOME +:+ replace "HOME" HOME b.
Proof.
  rewrite !replace_nonempty by done.
  remember (String.length a) as n eqn:Hn. revert a Hn.
  induction n as [n IH] using lt_wf_ind. intros a ->.
  destruct (startswith a "HOME") eqn:Hp.
  - apply startswith_spec in Hp as [a' ->].
    rewrite !app_assoc.
    rewrite (replace_from_match "HOME" HOME _ (a' +:+ "HOME" +:+ b)) by done.
    rewrite (replace_from_match "HOME" HOME ("HOME" +:+ a') a') by done.
    rewrite (IH (String.length a')); [|rewrite length_app; simpl; lia|done].
    by rewrite !app_assoc.
  - destruct a as [|c a].
    + rewrite app_nil_l.
      by rewrite (replace_from_match "HOME" HOME _ b).
    + assert (startswith (String c a +:+ "HOME" +:+ b) "HOME" = false) as Hp'.
      { revert Hp. clear.
        destruct a as [|c2 [|c3 [|c4 a]]]; rewrite ?app_cons, ?app_nil_l;
          cbn [startswith];
          repeat (destruct (Ascii.eqb _ _); cbn [andb]; try done). }
      rewrite app_cons in *.
      rewrite !replace_from_no_match by done.
      rewrite (IH (String.length a)); [|simpl; lia|done].
      by rewrite !app_cons.
Qed.

End NormalizeFacts.

(** ** [sorted] is a stable sort *)

Module PyListFacts.
Import PyList.

Section Sorted.
Context {A : Type} (key : A → nat).

Lemma insert_by_perm (x : A) (l : list A) : insert_by key x l ≡ₚ x :: l.
Proof.
  induction l as [|y l IH]; [done|]. cbn [insert_by].
  case_match; [done|]. rewrite IH. apply Permutation_swap.
Qed.

Lemma sort_by_perm (l : list A) : sort_by key l ≡ₚ l.
Proof.
  induction l as [|x l IH]; [done|]. cbn [sort_by].
  by rewrite insert_by_perm, IH.
Qed.






Lemma sorted_perm (r : bool) (l : list A) : sorted key r l ≡ₚ l.
Proof.
  unfold sorted. destruct r; [|apply sort_by_perm].
  by rewrite reverse_Permutation, sort_by_perm, reverse_Permutation.
Qed.




End Sorted.
End PyListFacts.

(** ** Claim about the processing order *)

Section OrderClaims.
Import Fs Program PyListFacts.


End OrderClaims.

(** ** The second loop of each pass on tasks that do not touch each other *)

Module PassFacts.
Import PyStr Fs FsAux FsFacts Program ProgramAux ProgramFacts TaskFacts.
Import TreeAux TreeFacts PathFacts RelocateFacts PassAux StepFacts.

#[local] Opaque resolve.

Lemma forallb_Forall {A} (f : A → bool) (l : list A) :
  forallb f l = true ↔ Forall (λ x, f x = true) l.
Proof.
  induction l as [|x l IH]; [by split|].
  cbn [forallb]. rewrite andb_true_iff, Forall_cons. by rewrite IH.
Qed.

Lemma is_path_spec (p : list string) :
  is_path p = true ↔ Forall (λ c, is_name c = true) p ∧ p ≠ [].
Proof.
  unfold is_path. rewrite andb_true_iff, forallb_Forall, negb_true_iff.
  by rewrite bool_decide_eq_false.
Qed.

Lemma is_dir_atb_spec (r : node) (p : list string) :
  is_dir_atb r p = true ↔ is_dir_at r p.
Proof.
  unfold is_dir_atb, is_dir_at. split.
  - destruct (tlookup p r) as [[| |ch]|]; try done. by exists ch.
  - by intros [ch ->].
Qed.

Lemma relocatable_spec (r : node) (p : placed) :
  relocatable r p = true ↔
    is_path (placed_src p) = true ∧ is_path (placed_dst p) = true
    ∧ (∃ x, tlookup (placed_src p) r = Some x
            ∧ is_link_node x = false ∧ p.2 = is_dir_node x)
    ∧ tlookup (placed_dst p) r = None
    ∧ is_dir_at r (removelast (placed_dst p)).
Proof.
  unfold relocatable. rewrite !andb_true_iff, bool_decide_eq_true.
  rewrite is_dir_atb_spec.
  assert (match tlookup (placed_src p) r with
          | Some x => negb (is_link_node x) && Bool.eqb p.2 (is_dir_node x)
          | None => false
          end = true
          ↔ ∃ x, tlookup (placed_src p) r = Some x
                 ∧ is_link_node x = false ∧ p.2 = is_dir_node x) as ->;
    [|tauto].
  destruct (tlookup (placed_src p) r) as [x|].
  - rewrite andb_true_iff, negb_true_iff, Bool.eqb_true_iff. split.
    + intros [??]. by exists x.
    + by intros (? & [= <-] & ? & ?).
  - split; [done|]. by intros (? & ? & _).
Qed.

Lemma relocated_spec (r : node) (p : placed) :
  relocated r p = true ↔
    is_path (placed_src p) = true ∧ is_path (placed_dst p) = true
    ∧ tlookup (placed_src p) r = Some (Link (path_of (placed_dst p)))
    ∧ (∃ x, tlookup (placed_dst p) r = Some x
            ∧ is_link_node x = false ∧ p.2 = is_dir_node x).
Proof.
  unfold relocated. rewrite !andb_true_iff.
  assert (match tlookup (placed_dst p) r with
          | Some x => negb (is_link_node x) && Bool.eqb p.2 (is_dir_node x)
          | None => false
          end = true
          ↔ ∃ x, tlookup (placed_dst p) r = Some x
                 ∧ is_link_node x = false ∧ p.2 = is_dir_node x) as ->.
  { destruct (tlookup (placed_dst p) r) as [x|].
    - rewrite andb_true_iff, negb_true_iff, Bool.eqb_true_iff. split.
      + intros [??]. by exists x.
      + by intros (? & [= <-] & ? & ?).
    - split; [done|]. by intros (? & ? & _). }
  assert (match tlookup (placed_src p) r with
          | Some (Link t) => String.eqb t (path_of (placed_dst p))
          | _ => false
          end = true
          ↔ tlookup (placed_src p) r = Some (Link (path_of (placed_dst p))))
    as ->; [|tauto].
  destruct (tlookup (placed_src p) r) as [[|t|]|]; try done.
  rewrite String.eqb_eq. split; [by intros ->|by intros [= ->]].
Qed.

(** *** Tasks apart from each other *)

Lemma indepb_true (p q : list string) : indepb p q = true ↔ indep p q.
Proof.
  unfold indepb, indep.
  by rewrite andb_true_iff, !negb_true_iff, !bool_decide_eq_false.
Qed.

Lemma apartb_spec (p q : placed) :
  apartb p q = true ↔
    indep (placed_src p) (placed_src q) ∧ indep (placed_src p) (placed_dst q)
    ∧ indep (placed_dst p) (placed_src q)
    ∧ indep (placed_dst p) (placed_dst q).
Proof. unfold apartb. rewrite !andb_true_iff, !indepb_true. tauto. Qed.

Lemma apartb_sym (p q : placed) : apartb p q = true → apartb q p = true.
Proof.
  rewrite !apartb_spec. intros (? & ? & ? & ?).
  split_and!; by apply indep_sym.
Qed.

Lemma tasks_indep_cons (p : placed) (ps : list placed) :
  tasks_indep (p :: ps) = true ↔
    indep (placed_src p) (placed_dst p)
    ∧ Forall (λ q, apartb p q = true) ps ∧ tasks_indep ps = true.
Proof.
  cbn [tasks_indep]. rewrite !andb_true_iff, indepb_true, forallb_Forall.
  tauto.
Qed.

Lemma tasks_indep_Forall (ps : list placed) :
  tasks_indep ps = true →
  Forall (λ p, indep (placed_src p) (placed_dst p)) ps.
Proof.
  induction ps as [|p ps IH]; [done|].
  rewrite tasks_indep_cons. intros (? & _ & ?). constructor; auto.
Qed.

Lemma tasks_indep_perm (ps ps' : list placed) :
  ps ≡ₚ ps' → tasks_indep ps = true → tasks_indep ps' = true.
Proof.
  induction 1 as [|p l l' Hl IH|p q l|l l' l'' _ IH1 _ IH2]; [done|..].
  - rewrite !tasks_indep_cons. intros (? & Ha & ?).
    split_and!; [done| |by apply IH]. by rewrite <-Hl.
  - rewrite !tasks_indep_cons.
    intros (? & [Hqp Hq]%Forall_cons & ? & Hp & ?).
    split_and!; try done. constructor; [by apply apartb_sym|done].
  - auto.
Qed.

(** *** What a move of one task leaves of the others *)

Ltac solve_indep := first [done | by apply indep_sym].

Section Frame.
Context (p q : placed) (r : node).
Hypothesis Hp : indep (placed_src p) (placed_dst p).
Hypothesis Hpq : apartb p q = true.

Lemma relocatable_link_in :
  relocatable r q = true →
  relocatable (link_in (placed_src p) (placed_dst p) r) q = true.
Proof.
  apply apartb_spec in Hpq as (Hss & Hsd & Hds & Hdd).
  rewrite !relocatable_spec. intros (? & ? & (x & ? & ?) & ? & ?).
  split_and!; try done.
  - exists x. by rewrite tlookup_link_in_indep by solve_indep.
  - by rewrite tlookup_link_in_indep by solve_indep.
  - apply is_dir_at_link_in; [done| | |done]; by apply indep_removelast.
Qed.

Lemma relocated_link_in :
  relocated r q = true →
  relocated (link_in (placed_src p) (placed_dst p) r) q = true.
Proof.
  apply apartb_spec in Hpq as (Hss & Hsd & Hds & Hdd).
  rewrite !relocated_spec. intros (? & ? & ? & (x & ? & ?)).
  split_and!; try done.
  - by rewrite tlookup_link_in_indep by solve_indep.
  - exists x. by rewrite tlookup_link_in_indep by solve_indep.
Qed.


End Frame.

Lemma relocated_after_link_in (p : placed) (r : node) :
  indep (placed_src p) (placed_dst p) →
  relocatable r p = true →
  relocated (link_in (placed_src p) (placed_dst p) r) p = true.
Proof.
  intros Hi. rewrite relocatable_spec, relocated_spec.
  intros (? & ? & (x & ? & ?) & ? & ?). split_and!; try done.
  - by eapply tlookup_link_in_src.
  - exists x. split; [|done]. by apply tlookup_link_in_dst.
Qed.

(** *** All tasks *)

Lemma link_all_cons (p : placed) (ps : list placed) (r : node) :
  link_all (p :: ps) r
  = link_all ps (link_in (placed_src p) (placed_dst p) r).
Proof. done. Qed.


Lemma relocatable_link_all_frame (ps : list placed) (q : placed) (r : node) :
  tasks_indep ps = true → Forall (λ p, apartb p q = true) ps →
  relocated r q = true → relocated (link_all ps r) q = true.
Proof.
  revert r. induction ps as [|p ps IH]; intros r Hi Ha Hq; [done|].
  apply tasks_indep_cons in Hi as (Hp & _ & Hi).
  apply Forall_cons in Ha as [Hpq Ha].
  rewrite link_all_cons. apply IH; [done..|]. by apply relocated_link_in.
Qed.

(** After the moves, every task is in place. *)
Lemma relocated_link_all (ps : list placed) (r : node) :
  tasks_indep ps = true →
  Forall (λ p, relocatable r p = true) ps →
  Forall (λ p, relocated (link_all ps r) p = true) ps.
Proof.
  revert r. induction ps as [|p ps IH]; intros r Hi Hr; [done|].
  pose proof Hi as Hi'.
  apply tasks_indep_cons in Hi as (Hp & Ha & Hi).
  apply Forall_cons in Hr as [Hrp Hr]. rewrite link_all_cons.
  constructor.
  - apply relocatable_link_all_frame; [done| |by apply relocated_after_link_in].
    eapply Forall_impl; [exact Ha|]. intros q. apply apartb_sym.
  - apply IH; [done|].
    rewrite Forall_forall in Hr, Ha. apply Forall_forall. intros q Hq.
    apply relocatable_link_in; auto.
Qed.

(** The order of the moves does not matter. *)
Lemma link_all_perm (ps ps' : list placed) (r : node) :
  ps ≡ₚ ps' → tasks_indep ps = true → link_all ps r = link_all ps' r.
Proof.
  intros Hperm. revert r.
  induction Hperm as [|p l l' Hl IH|p q l|l l' l'' Hl IH1 _ IH2];
    intros r Hi; [done|..].
  - rewrite !link_all_cons. apply IH.
    by apply tasks_indep_cons in Hi as (_ & _ & ?).
  - rewrite !link_all_cons. f_equal.
    apply tasks_indep_cons in Hi as (Hq & [Hqp _]%Forall_cons & Hi).
    apply tasks_indep_cons in Hi as (Hp & _ & _).
    apply apartb_sym, apartb_spec in Hqp as (? & ? & ? & ?).
    by apply link_in_commute.
  - rewrite IH1 by done. apply IH2. by eapply tasks_indep_perm.
Qed.



(** *** The loops over the tasks *)

Lemma unlink_all_cons (p : placed) (ps : list placed) (r : node) :
  unlink_all (p :: ps) r
  = unlink_all ps (unlink_in (placed_src p) (placed_dst p) r).
Proof. done. Qed.

Lemma stdin_not_nil (w : world) (n : nat) :
  S n ≤ length (stdin w) → stdin w ≠ [].
Proof. intros H Hnil. rewrite Hnil in H. simpl in H. lia. Qed.

Lemma add_loop (ps : list placed) (w : world) :
  tasks_indep ps = true →
  Forall (λ p, relocatable (root w) p = true) ps →
  Forall (λ l, accepting l = true) (stdin w) →
  length ps ≤ length (stdin w) →
  ∃ k msgs, k ≤ length ps
    ∧ for_each (to_task <$> ps) add_task w
      = (after (link_all ps (root w)) k msgs w, Ok tt).
Proof.
  revert w. induction ps as [|p ps IH]; intros w Hi Hr Hacc Hlen.
  { exists 0, []. split; [done|]. unfold link_all. cbn [foldl].
    by rewrite after_id. }
  apply tasks_indep_cons in Hi as (Hp & Ha & Hi).
  apply Forall_cons in Hr as [Hrp Hr].
  pose proof Hrp as Hrp'.
  apply relocatable_spec in Hrp'
    as ([Hsn _]%is_path_spec & [Hdn _]%is_path_spec
        & (x & Hx & Hnl & _) & Hn & Hd).
  destruct (add_task_fresh w (placed_src p) (placed_dst p) p.2 x)
    as (k1 & m1 & Hk1 & Hstep); try done.
  { by eapply stdin_not_nil. }
  set (w1 := after (link_in (placed_src p) (placed_dst p) (root w)) k1 m1 w)
    in *.
  destruct (IH w1) as (k2 & m2 & Hk2 & Hrest); [done| | | |].
  - rewrite Forall_forall in Hr, Ha. apply Forall_forall. intros q Hq.
    apply relocatable_link_in; auto.
  - by apply accepting_drop.
  - unfold w1, after. cbn [stdin]. rewrite length_drop.
    cbn [length] in Hlen. lia.
  - exists (k1 + k2), (m1 ++ m2). split; [cbn [length]; lia|].
    rewrite fmap_cons. cbn [for_each].
    erewrite bind_ok; [|exact Hstep]. fold w1. rewrite Hrest.
    subst w1. by rewrite after_after.
Qed.


(** *** The first loop: no task is left out *)

Lemma handle_path_conflict_relocatable (w : world) (p : placed) :
  relocatable (root w) p = true →
  handle_path_conflict (path_of (placed_src p)) p.2 w = (w, Ok true).
Proof.
  intros ([Hsn Hs0]%is_path_spec & _ & (x & Hx & Hnl & Hty) & _)%relocatable_spec.
  assert (resolve w true (path_of (placed_src p)) = Found (placed_src p) x)
    as Hr by (apply resolve_found; auto).
  rewrite handle_path_conflict_eq.
  rewrite (path_exists_found _ _ _ _ Hr), (path_isdir_found _ _ _ _ Hr),
    (path_isfile_found _ _ _ _ Hr), Hty.
  by destruct x.
Qed.


Lemma for_acc_all {A} (g : A → list task)
    (body : list task → A → M (list task)) (w : world) (l : list A) :
  (∀ acc x, x ∈ l → body acc x w = (w, Ok (acc ++ g x))) →
  ∀ acc, for_acc l body acc w = (w, Ok (acc ++ (l ≫= g))).
Proof.
  induction l as [|x l IH]; intros Hb acc.
  - by rewrite List.app_nil_r.
  - cbn [for_acc]. erewrite bind_ok; [|apply Hb; by left].
    rewrite IH by (intros acc' y Hy; apply Hb; by right).
    by rewrite bind_cons, List.app_assoc.
Qed.

(** When no declaration is in conflict with what is on disk, the first
    loop derives every declared task and prints nothing. *)
Lemma collect_all (HOME : string) (skipped : string → bool)
    (base_path_of : string → string) (cfg : config) (w : world) :
  config_ok cfg = true →
  (∀ t, t ∈ declared_tasks HOME skipped base_path_of cfg →
        handle_path_conflict (task_src t) t.2 w = (w, Ok true)) →
  (dirs ← config_items cfg "dirs";
   for_acc dirs
     (λ tasks '(storage_id, base_dir),
        items ← config_items cfg storage_id;
        for_acc items
          (λ tasks '(raw_path, _),
             if skipped raw_path then ret tasks
             else enqueue HOME base_path_of base_dir tasks raw_path)
          tasks)
     []) w
  = (w, Ok (declared_tasks HOME skipped base_path_of cfg)).
Proof.
  unfold config_ok, declared_tasks, config_items.
  destruct (cfg !! "dirs") as [dirs|]; [|done]. cbn [default].
  intros Hcfg Hok. rewrite forallb_Forall, Forall_forall in Hcfg. mnorm.
  rewrite (for_acc_all
             (λ '(storage_id, base_dir),
                match base_dir with
                | None => []
                | Some base_dir =>
                    '(raw_path, _) ← default [] (cfg !! storage_id);
                    if skipped raw_path then []
                    else [(src_of HOME (base_path_of raw_path),
                           dst_of HOME base_dir (base_path_of raw_path),
                           endswith raw_path "/")]
                end)); [done|].
  intros acc [sid base_dir] Hsid.
  pose proof (Hcfg _ Hsid) as Hc. cbn beta iota in Hc.
  apply andb_true_iff in Hc as [[items Hitems]%bool_decide_eq_true
                                 [bd ->]%bool_decide_eq_true].
  rewrite Hitems. mnorm. cbn [default].
  rewrite (for_acc_all
             (λ '(raw_path, _),
                if skipped raw_path then []
                else [(src_of HOME (base_path_of raw_path),
                       dst_of HOME bd (base_path_of raw_path),
                       endswith raw_path "/")])); [done|].
  intros acc' [raw v] Hraw. destruct (skipped raw) eqn:Hsk.
  - by rewrite List.app_nil_r.
  - rewrite enqueue_eq. cbv zeta.
    assert (handle_path_conflict (src_of HOME (base_path_of raw))
              (endswith raw "/") w = (w, Ok true)) as ->; [|done].
    apply (Hok (src_of HOME (base_path_of raw),
                dst_of HOME bd (base_path_of raw), endswith raw "/")).
    apply list_elem_of_bind. exists (sid, Some bd). split; [|done].
    rewrite Hitems. cbn [default].
    apply list_elem_of_bind. exists (raw, v). split; [|done].
    rewrite Hsk. by left.
Qed.



(** *** The passes *)

Section SortedFmap.
Context {A B : Type} (f : A → B) (key : B → nat).

Lemma insert_by_fmap (x : A) (l : list A) :
  PyList.insert_by key (f x) (f <$> l)
  = f <$> PyList.insert_by (key ∘ f) x l.
Proof.
  induction l as [|y l IH]; [done|].
  rewrite fmap_cons. cbn [PyList.insert_by]. unfold compose at 1 2.
  destruct (key (f x) <=? key (f y)); [done|]. by rewrite IH.
Qed.

Lemma sort_by_fmap (l : list A) :
  PyList.sort_by key (f <$> l) = f <$> PyList.sort_by (key ∘ f) l.
Proof.
  induction l as [|x l IH]; [done|].
  rewrite fmap_cons. cbn [PyList.sort_by]. by rewrite IH, insert_by_fmap.
Qed.

Lemma sorted_fmap (r : bool) (l : list A) :
  PyList.sorted key r (f <$> l) = f <$> PyList.sorted (key ∘ f) r l.
Proof.
  unfold PyList.sorted. destruct r; [|apply sort_by_fmap].
  by rewrite <-fmap_reverse, sort_by_fmap, fmap_reverse.
Qed.

End SortedFmap.

Section Passes.
Context (HOME : string) (cfg : config) (w : world) (cts : list placed).
Hypothesis Hcfg : config_ok cfg = true.
Hypothesis Hindep : tasks_indep cts = true.
Hypothesis Hacc : Forall (λ l, accepting l = true) (stdin w).
Hypothesis Hlen : length cts ≤ length (stdin w).

(** The addition pass on plain entries moves and links every one. *)
Lemma additions_pass :
  declared_additions HOME cfg = to_task <$> cts →
  Forall (λ p, relocatable (root w) p = true) cts →
  ∃ k msgs, k ≤ length cts
    ∧ apply_additions HOME cfg w
      = (after (link_all cts (root w)) k msgs w, Ok tt).
Proof.
  intros Hdecl Hr.
  assert (collect_additions HOME cfg w = (w, Ok (to_task <$> cts))) as Hc.
  { rewrite <-Hdecl. apply collect_all; [done|].
    fold (declared_additions HOME cfg). rewrite Hdecl.
    intros t (p & -> & Hp)%list_elem_of_fmap.
    apply handle_path_conflict_relocatable.
    rewrite Forall_forall in Hr. auto. }
  unfold apply_additions. erewrite bind_ok; [|exact Hc].
  unfold addition_order. rewrite sorted_fmap.
  set (ps := PyList.sorted (src_len ∘ to_task) true cts).
  assert (ps ≡ₚ cts) as Hperm by apply PyListFacts.sorted_perm.
  destruct (add_loop ps w) as (k & msgs & Hk & Hloop).
  - eapply tasks_indep_perm; [|done]. done.
  - by rewrite Hperm.
  - done.
  - by rewrite Hperm.
  - exists k, msgs. split; [by rewrite <-Hperm|].
    rewrite Hloop. rewrite (link_all_perm ps cts); [done..|].
    by eapply tasks_indep_perm.
Qed.


End Passes.

(** An entry in place is linked. *)
Lemma relocated_linked (w : world) (p : placed) :
  relocated (root w) p = true → linked w (to_task p).
Proof.
  intros ([Hsn Hs0]%is_path_spec & _ & Hl & _)%relocated_spec.
  exists (placed_src p). apply resolve_found; auto.
Qed.

Lemma linkedb_spec (w : world) (t : task) :
  linkedb w t = true ↔ linked w t.
Proof.
  unfold linkedb, linked. split.
  - destruct (resolve w false (task_src t)) as [c [|t'|]| |]; try done.
    intros ->%String.eqb_eq. by exists c.
  - intros [c ->]. apply String.eqb_refl.
Qed.


End PassFacts.

(** ** Claims about the backing name and the derived paths *)

Section NormalizeClaims.
Import PyStr StrAux PyStrFacts NormalizeFacts Program.

(** C7, as stated, fails: with the home directory [/home/u] the safe name
    of the path [HOME] is [-home-u], not the safe name of the path with the
    token deleted (the empty name). *)
Lemma C7_token_is_not_deleted :
  normalize_path "/home/u" "HOME" = "-home-u"
  ∧ normalize_path "/home/u" "HOME" ≠ normalize_path "/home/u" "".
Proof. split; [reflexivity|discriminate]. Qed.

(** C7, amended: [normalize_path] replaces an embedded [HOME] token with the
    home directory path before escaping, so the safe name of a path that
    contains the token is the safe name of what precedes it, the escaped
    home directory, and the safe name of what follows it. *)
Theorem C7_normalize_path_expands_token (HOME a b : string) :
  normalize_path HOME (a +:+ "HOME" +:+ b)
  = normalize_path HOME a +:+ escape HOME +:+ normalize_path HOME b.
Proof.
  unfold normalize_path. rewrite replace_token_app.
  fold (escape (replace "HOME" HOME a +:+ HOME +:+ replace "HOME" HOME b)).
  by rewrite !escape_app.
Qed.

(** C4, as stated, fails: the directory [a-] with the entry [b] and the
    directory [a] with the entry [-b] get the same backing name. *)
Lemma C4_safe_name_collision :
  "a-/b" ≠ "a/-b"
  ∧ safe_name "/home/u" "a-/b" = safe_name "/home/u" "a/-b".
Proof. split; [discriminate|reflexivity]. Qed.

(** C4, amended: on home-relative paths without a [HOME] token, in which no
    separator is directly followed by a dash or another separator and which
    do not end in a dash or a separator, distinct paths have distinct
    backing names. *)
Theorem C4_safe_name_injective (HOME p q : string) :
  plain_path p = true → plain_path q = true →
  p ≠ q → safe_name HOME p ≠ safe_name HOME q.
Proof.
  intros Hp Hq Hne Heq. apply Hne.
  rewrite !safe_name_plain in Heq by done.
  rewrite <-(unescape_escape p), <-(unescape_escape q), Heq; [done|..].
  - unfold plain_path in Hq. by repeat (apply andb_prop in Hq as [Hq ?]).
  - unfold plain_path in Hp. by repeat (apply andb_prop in Hp as [Hp ?]).
Qed.

Lemma C4_safe_name_injective_witness :
  safe_name "/home/u" "docs/a-b" ≠ safe_name "/home/u" "docs/a/b".
Proof.
  apply (C4_safe_name_injective "/home/u" "docs/a-b" "docs/a/b");
    [reflexivity|reflexivity|discriminate].
Defined.

(** C5: the code derives different paths.  For the declaration
    [HOME/HOME/x] the addition pass deletes every [HOME/] and manages
    [~/x]; for [-HOME/HOME/x] the removal pass deletes the first [HOME/]
    only and looks at [~/HOME/x]. *)
Theorem C5_removal_derivation_diverges :
  addition_base_path "HOME/HOME/x" = "x"
  ∧ removal_base_path "-HOME/HOME/x" = "HOME/x"
  ∧ src_of "/home/u" (addition_base_path "HOME/HOME/x") = "/home/u/x"
  ∧ src_of "/home/u" (removal_base_path "-HOME/HOME/x") = "/home/u/HOME/x"
  ∧ dst_of "/home/u" "/mnt/s" (addition_base_path "HOME/HOME/x") = "/mnt/s/x"
  ∧ dst_of "/home/u" "/mnt/s" (removal_base_path "-HOME/HOME/x")
    = "/mnt/s/-home-u-x".
Proof. repeat split; reflexivity. Qed.

(** Where the two derivations agree: the path does not start with white
    space and contains [HOME/] at most once. *)
Lemma removal_base_path_matches (p : string) :
  lstrip p = p →
  contains "HOME/" (replace_first "HOME/" "" p) = false →
  removal_base_path ("-" +:+ p) = addition_base_path p.
Proof.
  intros Hl Hc. unfold removal_base_path, addition_base_path.
  rewrite app_cons, app_nil_l. cbn [drop]. rewrite Hl.
  by rewrite replace_once.
Qed.

Lemma removal_is_dir_matches (p : string) :
  endswith ("-" +:+ p) "/" = endswith p "/".
Proof. by rewrite app_cons, app_nil_l. Qed.

End NormalizeClaims.

(** ** Claims about the type check and the task list *)

Section CollectClaims.
Import PyStr Fs FsAux FsFacts Program ProgramAux ProgramFacts Scenario.






(** C10: where a dangling symlink is present ([lstat] finds a symlink whose
    target, read from the directory of the link, does not resolve), the
    conflict check answers [True] without a warning whatever type is
    declared, and the declaration is enqueued by the first loop. *)
Theorem C10_dangling_symlink_is_no_conflict (HOME : string) (w : world)
    (base_path_of : string → string) (base_dir raw_path : string)
    (tasks : list task) (c : list string) (target : string) (is_dir : bool) :
  resolve w false (src_of HOME (base_path_of raw_path)) = Found c (Link target) →
  link_target_exists w c target = false →
  handle_path_conflict (src_of HOME (base_path_of raw_path)) is_dir w
  = (w, Ok true)
  ∧ enqueue HOME base_path_of (Some base_dir) tasks raw_path w
    = (w, Ok (tasks ++ [(src_of HOME (base_path_of raw_path),
                         dst_of HOME base_dir (base_path_of raw_path),
                         endswith raw_path "/")])).
Proof.
  intros Hl Ht.
  assert (path_exists w (src_of HOME (base_path_of raw_path)) = false) as He
    by (by eapply dangling_not_exists).
  split.
  - by apply handle_path_conflict_absent.
  - rewrite enqueue_eq. cbv zeta.
    by rewrite handle_path_conflict_absent.
Qed.

Lemma C10_dangling_symlink_is_no_conflict_witness :
  handle_path_conflict "/home/u/bad" true world0 = (world0, Ok true)
  ∧ enqueue "/home/u" addition_base_path (Some "/mnt/photos") [] "bad/" world0
    = (world0, Ok [("/home/u/bad", "/mnt/photos/bad", true)]).
Proof.
  apply (C10_dangling_symlink_is_no_conflict "/home/u" world0
           addition_base_path "/mnt/photos" "bad/" []
           ["home"; "u"; "bad"] "/elsewhere" true); reflexivity.
Defined.

End CollectClaims.

(** ** Claims about a symlink found at [src] *)

Section SymlinkClaims.
Import PyStr Fs FsAux FsFacts Program ProgramAux ProgramFacts TaskFacts Scenario.

(** C1: the code does not skip.  When [src] is a symlink whose target is not
    [dst], the error line is printed and the symlink is left alone, but
    control then reaches [os.symlink(dst, src)], which raises
    [FileExistsError]: the loop stops there and the remaining tasks are not
    processed. *)
Theorem C1_wrong_symlink_aborts_the_pass (w : world) (src dst : string)
    (is_dir : bool) (rest : list task) (c : list string) (target : string) :
  resolve w false src = Found c (Link target) → target ≠ dst →
  add_task (src, dst, is_dir) w
  = (say [ErrorWrongSymlink src] w, Raise FileExistsError)
  ∧ for_each ((src, dst, is_dir) :: rest) add_task w
    = (say [ErrorWrongSymlink src] w, Raise FileExistsError).
Proof.
  intros Hl Hne. split; [by eapply add_task_wrong_link|].
  cbn [for_each]. apply bind_raise. by eapply add_task_wrong_link.
Qed.

Lemma C1_wrong_symlink_aborts_the_pass_witness :
  add_task ("/home/u/bad", "/mnt/photos/bad", false) world0
  = (say [ErrorWrongSymlink "/home/u/bad"] world0, Raise FileExistsError)
  ∧ for_each [("/home/u/bad", "/mnt/photos/bad", false);
              ("/home/u/foo", "/mnt/photos/foo", false)] add_task world0
    = (say [ErrorWrongSymlink "/home/u/bad"] world0, Raise FileExistsError).
Proof.
  apply (C1_wrong_symlink_aborts_the_pass world0 "/home/u/bad"
           "/mnt/photos/bad" false
           [("/home/u/foo", "/mnt/photos/foo", false)]
           ["home"; "u"; "bad"] "/elsewhere");
    [reflexivity|discriminate].
Defined.

(** The same on a whole pass: [bad] is declared before [foo]; the pass
    raises at [bad] and [foo] is never relocated. *)
Lemma apply_additions_aborts_on_wrong_symlink :
  apply_additions "/home/u" cfg_bad world0
  = (say [ErrorWrongSymlink "/home/u/bad"] world0, Raise FileExistsError).
Proof. by vm_compute. Qed.


(** The second run can also change the file system: the storage already has
    a directory [foo], so the first run moves [~/foo] into it, and the
    second run creates a new symlink [bar.txt] next to it. *)
Lemma second_run_after_collision_changes_tree :
  let run1 := apply_additions "/home/u" cfg_nested world_nested in
  let run2 := apply_additions "/home/u" cfg_nested run1.1 in
  run1.2 = Ok tt ∧ run2.2 = Ok tt
  ∧ tlookup ["mnt"; "photos"; "foo"; "bar.txt"] (root run1.1) = None
  ∧ tlookup ["mnt"; "photos"; "foo"; "bar.txt"] (root run2.1)
    = Some (Link "/mnt/photos/foo-bar.txt").
Proof. by vm_compute. Qed.


End SymlinkClaims.

(** ** Claims about whole passes *)

Section PassClaims.
Import PyStr Fs FsAux FsFacts Program ProgramAux ProgramFacts TaskFacts.
Import TreeAux TreeFacts PathFacts RelocateFacts PassAux StepFacts PassFacts.
Import Scenario.



(** The paths of the theorem do not nest.  On this example, with a declared
    directory and a declared file inside it, the round trip restores the
    tree as well: the file is moved first and moved back last. *)
Lemma round_trip_nested_example :
  let run1 := apply_additions "/home/u" cfg_nested world_inside in
  let run2 := apply_removals "/home/u" cfg_nested_removal run1.1 in
  run1.2 = Ok tt ∧ run2.2 = Ok tt
  ∧ tlookup ["home"; "u"; "foo"] (root run1.1) = Some (Link "/mnt/photos/foo")
  ∧ tlookup ["mnt"; "photos"; "foo"; "bar.txt"] (root run1.1)
    = Some (Link "/mnt/photos/foo-bar.txt")
  ∧ root run2.1 = root world_inside.
Proof. by vm_compute. Qed.

(** The premise of the next theorem is what a first run establishes under
    the hypotheses of the round trip. *)
Lemma first_run_links_every_task (HOME : string) (cfg : config) (w : world)
    (cts : list placed) :
  config_ok cfg = true →
  declared_additions HOME cfg = to_task <$> cts →
  tasks_indep cts = true →
  forallb (relocatable (root w)) cts = true →
  forallb accepting (stdin w) = true →
  length cts ≤ length (stdin w) →
  ∃ w1, apply_additions HOME cfg w = (w1, Ok tt)
        ∧ forallb (linkedb w1) (declared_additions HOME cfg) = true.
Proof.
  intros Hcfg Hadd Hi Hr%forallb_Forall Hacc%forallb_Forall Hlen.
  destruct (additions_pass HOME cfg w cts) as (k & msgs & Hk & Hrun1);
    [done..|].
  eexists. split; [done|].
  rewrite Hadd. apply forallb_Forall, Forall_fmap.
  eapply Forall_impl; [by apply relocated_link_all|].
  intros p Hp. by apply linkedb_spec, relocated_linked.
Qed.



(** The two runs of the claim on [cfg_two]: the second run prints two
    "already configured" lines and leaves the tree of the first. *)
Lemma second_run_on_cfg_two :
  let run1 := apply_additions "/home/u" cfg_two world_accepting in
  let run2 := apply_additions "/home/u" cfg_two run1.1 in
  run1.2 = Ok tt ∧ run2.2 = Ok tt ∧ root run2.1 = root run1.1
  ∧ stdout run2.1
    = stdout run1.1 ++ [InfoAlreadyConfigured "/home/u/Pictures";
                        InfoAlreadyConfigured "/home/u/foo"].
Proof. by vm_compute. Qed.

End PassClaims.

(** * Further properties of the program *)

(** ** [confirm_move] *)

Module ConfirmFacts.
Import PyStr Fs FsAux FsFacts Program ProgramAux ProgramFacts TaskFacts.
Import PassAux StepFacts.

#[local] Opaque resolve.

Lemma lower_char_y (c : ascii) :
  Ascii.eqb (lower_char c) "y" = Ascii.eqb c "y" || Ascii.eqb c "Y".
Proof. destruct c as [[] [] [] [] [] [] [] []]; reflexivity. Qed.

Lemma lower_y (s : string) : lower s = "y" ↔ s = "y" ∨ s = "Y".
Proof.
  destruct s as [|c [|c' s]]; cbn [lower].
  - split; [done|]. by intros [?|?].
  - pose proof (lower_char_y c) as Hc. split.
    + intros [= H]. apply Ascii.eqb_eq in H. rewrite H in Hc.
      symmetry in Hc. apply orb_true_iff in Hc as [->%Ascii.eqb_eq| ->%Ascii.eqb_eq];
        auto.
    + by intros [[= ->]|[= ->]].
  - split; [done|]. by intros [?|?].
Qed.

Lemma accepting_spec (line : string) :
  accepting line = bool_decide (strip line = "y" ∨ strip line = "Y").
Proof.
  unfold accepting. destruct (String.eqb_spec (lower (strip line)) "y") as [H|H].
  - symmetry. by apply bool_decide_eq_true, lower_y.
  - symmetry. apply bool_decide_eq_false. by rewrite <-lower_y.
Qed.

Section Confirm.
Context (w : world) (src dst : string) (c c' : list string) (x x' : node).
Hypothesis Hsrc : resolve w true src = Found c x.
Hypothesis Hdir : resolve w true (PosixPath.dirname dst) = Found c' x'.

Lemma is_same_device_found :
  is_same_device src (PosixPath.dirname dst) w
  = (w, Ok (dev_of (mounts w) c =? dev_of (mounts w) c')).
Proof.
  unfold is_same_device. mnorm.
  erewrite bind_ok; [|exact (os_stat_dev_found w src c x Hsrc)]. mnorm.
  erewrite bind_ok; [|exact (os_stat_dev_found w _ c' x' Hdir)]. by mnorm.
Qed.

Lemma confirm_move_same_device :
  dev_of (mounts w) c = dev_of (mounts w) c' →
  confirm_move src dst w = (w, Ok true).
Proof.
  intros Hdev. unfold confirm_move.
  erewrite bind_ok; [|exact is_same_device_found].
  apply Nat.eqb_eq in Hdev. by rewrite Hdev.
Qed.

Lemma confirm_move_answer (line : string) (rest : list string) :
  dev_of (mounts w) c ≠ dev_of (mounts w) c' →
  stdin w = line :: rest →
  confirm_move src dst w
  = (World (root w) (cwd w) (mounts w) rest
       (stdout w ++ [PromptCrossDevice src dst]), Ok (accepting line)).
Proof.
  intros Hdev Hin. unfold confirm_move.
  erewrite bind_ok; [|exact is_same_device_found].
  apply Nat.eqb_neq in Hdev. rewrite Hdev. cbn [negb]. mnorm.
  erewrite bind_ok; [|by unfold input; cbn [stdin say]; rewrite Hin].
  done.
Qed.

Lemma confirm_move_eof :
  dev_of (mounts w) c ≠ dev_of (mounts w) c' →
  stdin w = [] →
  confirm_move src dst w
  = (say [PromptCrossDevice src dst] w, Raise EOFError).
Proof.
  intros Hdev Hin. unfold confirm_move.
  erewrite bind_ok; [|exact is_same_device_found].
  apply Nat.eqb_neq in Hdev. rewrite Hdev. cbn [negb]. mnorm.
  apply bind_raise. unfold input. cbn [stdin say]. by rewrite Hin.
Qed.

End Confirm.

End ConfirmFacts.

(** ** The second loops on tasks that are not moved *)

Module SkipFacts.
Import PyStr Fs FsAux FsFacts Program ProgramAux ProgramFacts TaskFacts.
Import PassAux StepFacts PassFacts ConfirmFacts.

#[local] Opaque resolve.




(** The addition of a task whose [src] is there and is no symlink, up to
    the question. *)
Lemma add_task_plain (w : world) (src dst : string) (is_dir : bool)
    (c : list string) (x : node) :
  path_islink w src = false →
  resolve w true src = Found c x →
  add_task (src, dst, is_dir) w
  = (ok ← confirm_move src dst;
     go ← (if negb ok then print (InfoMoveCancelled src);; ret false
            else shutil_move src dst;; ret true);
     if (go : bool) then
       os_symlink dst src;; print (LinkCreated src dst)
     else ret tt)
      (say (if path_exists w dst then [ErrorDstExists dst src] else []) w).
Proof.
  intros Hl Hr. unfold add_task, os_path_islink, os_path_exists. mnorm.
  rewrite Hl. mnorm. rewrite (path_exists_found _ _ _ _ Hr). mnorm.
  destruct (path_exists w dst); mnorm; [done|]. by rewrite say_nil.
Qed.

End SkipFacts.

(** ** Properties of the passes beyond the claims *)

Section ExtraSkips.
Import PyStr Fs FsAux FsFacts Program ProgramAux ProgramFacts TaskFacts.
Import PassAux StepFacts PassFacts ConfirmFacts SkipFacts Scenario.



(** X2: a declined move changes nothing.  When [src] is there and is no
    symlink, the directory of [dst] is on another device and the line read
    is not a yes, the task prints the question and the cancellation (after
    the "already exists" line when [dst] exists) and consumes the line; the
    tree is the same and there is no symlink at [src]. *)
Theorem X2_declined_move_changes_nothing (w : world) (src dst : string)
    (is_dir : bool) (c c' : list string) (x x' : node)
    (line : string) (rest : list string) :
  path_islink w src = false →
  resolve w true src = Found c x →
  resolve w true (PosixPath.dirname dst) = Found c' x' →
  dev_of (mounts w) c ≠ dev_of (mounts w) c' →
  stdin w = line :: rest → accepting line = false →
  add_task (src, dst, is_dir) w
  = (World (root w) (cwd w) (mounts w) rest
       (stdout w
        ++ (if path_exists w dst then [ErrorDstExists dst src] else [])
        ++ [PromptCrossDevice src dst; InfoMoveCancelled src]), Ok tt).
Proof.
  intros Hl Hs Hd Hdev Hin Hno.
  rewrite (add_task_plain w src dst is_dir c x Hl Hs).
  set (pre := if path_exists w dst then [ErrorDstExists dst src] else []).
  erewrite bind_ok;
    [|apply (confirm_move_answer (say pre w) src dst c c' x x');
      [by rewrite resolve_say|by rewrite resolve_say|done|exact Hin]].
  rewrite Hno. cbn [negb]. mnorm. unfold ret, say.
  cbn [root cwd mounts stdin stdout]. by rewrite <-!List.app_assoc.
Qed.

Lemma X2_declined_move_changes_nothing_witness :
  add_task ("/home/u/foo", "/mnt/photos/foo", false) world_declining
  = (World (root world_declining) (cwd world_declining)
       (mounts world_declining) ["n"]
       (stdout world_declining
        ++ (if path_exists world_declining "/mnt/photos/foo"
            then [ErrorDstExists "/mnt/photos/foo" "/home/u/foo"] else [])
        ++ [PromptCrossDevice "/home/u/foo" "/mnt/photos/foo";
            InfoMoveCancelled "/home/u/foo"]), Ok tt).
Proof.
  apply (X2_declined_move_changes_nothing world_declining "/home/u/foo"
           "/mnt/photos/foo" false ["home"; "u"; "foo"] ["mnt"; "photos"]
           (File ["f"%byte]) (dir []) "n" ["n"]);
    [reflexivity..|by vm_compute|reflexivity|reflexivity].
Defined.

(** X3: a storage directory that is not there stops the addition.  When
    [src] is there and is no symlink but the directory of [dst] does not
    exist, [os.stat] in [is_same_device] raises [FileNotFoundError]: the
    task (and with it the pass) ends with the exception before anything is
    moved. *)
Theorem X3_missing_storage_directory_raises (w : world) (src dst : string)
    (is_dir : bool) (c parent : list string) (x : node) (name : string) :
  path_islink w src = false →
  resolve w true src = Found c x →
  resolve w true (PosixPath.dirname dst) = Absent parent name →
  add_task (src, dst, is_dir) w
  = (say (if path_exists w dst then [ErrorDstExists dst src] else []) w,
     Raise FileNotFoundError).
Proof.
  intros Hl Hs Hd.
  rewrite (add_task_plain w src dst is_dir c x Hl Hs).
  set (pre := if path_exists w dst then [ErrorDstExists dst src] else []).
  apply bind_raise. unfold confirm_move. apply bind_raise.
  unfold is_same_device.
  erewrite bind_ok;
    [|apply (os_stat_dev_found (say pre w) src c x); by rewrite resolve_say].
  apply bind_raise. unfold os_stat_dev. by rewrite resolve_say, Hd.
Qed.

Lemma X3_missing_storage_directory_raises_witness :
  add_task ("/home/u/foo", "/mnt/none/foo", false) world0
  = (say (if path_exists world0 "/mnt/none/foo"
          then [ErrorDstExists "/mnt/none/foo" "/home/u/foo"] else []) world0,
     Raise FileNotFoundError).
Proof.
  apply (X3_missing_storage_directory_raises world0 "/home/u/foo"
           "/mnt/none/foo" false ["home"; "u"; "foo"] ["mnt"]
           (File ["f"%byte]) "none"); reflexivity.
Defined.

(** X4: what [confirm_move] asks and accepts.  With [src] and the directory
    of [dst] there: on one device it answers [True] without a question; on
    two devices it prints the question and reads one line, and answers
    [True] exactly when the line without surrounding white space is [y] or
    [Y]; at the end of the input it raises [EOFError] after the question.
    It never changes the tree. *)
Theorem X4_confirm_move_answers (w : world) (src dst : string)
    (c c' : list string) (x x' : node) :
  resolve w true src = Found c x →
  resolve w true (PosixPath.dirname dst) = Found c' x' →
  (dev_of (mounts w) c = dev_of (mounts w) c' →
   confirm_move src dst w = (w, Ok true))
  ∧ (dev_of (mounts w) c ≠ dev_of (mounts w) c' →
     ∀ line rest, stdin w = line :: rest →
       confirm_move src dst w
       = (World (root w) (cwd w) (mounts w) rest
            (stdout w ++ [PromptCrossDevice src dst]),
          Ok (bool_decide (strip line = "y" ∨ strip line = "Y"))))
  ∧ (dev_of (mounts w) c ≠ dev_of (mounts w) c' → stdin w = [] →
     confirm_move src dst w
     = (say [PromptCrossDevice src dst] w, Raise EOFError)).
Proof.
  intros Hs Hd. split_and!.
  - by eapply confirm_move_same_device.
  - intros Hdev line rest Hin. rewrite <-accepting_spec.
    by eapply confirm_move_answer.
  - by eapply confirm_move_eof.
Qed.

Lemma X4_confirm_move_answers_witness :
  (dev_of (mounts world_declining) ["home"; "u"; "foo"]
   = dev_of (mounts world_declining) ["mnt"; "photos"] →
   confirm_move "/home/u/foo" "/mnt/photos/foo" world_declining
   = (world_declining, Ok true))
  ∧ (dev_of (mounts world_declining) ["home"; "u"; "foo"]
     ≠ dev_of (mounts world_declining) ["mnt"; "photos"] →
     ∀ line rest, stdin world_declining = line :: rest →
       confirm_move "/home/u/foo" "/mnt/photos/foo" world_declining
       = (World (root world_declining) (cwd world_declining)
            (mounts world_declining) rest
            (stdout world_declining
             ++ [PromptCrossDevice "/home/u/foo" "/mnt/photos/foo"]),
          Ok (bool_decide (strip line = "y" ∨ strip line = "Y"))))
  ∧ (dev_of (mounts world_declining) ["home"; "u"; "foo"]
     ≠ dev_of (mounts world_declining) ["mnt"; "photos"] →
     stdin world_declining = [] →
     confirm_move "/home/u/foo" "/mnt/photos/foo" world_declining
     = (say [PromptCrossDevice "/home/u/foo" "/mnt/photos/foo"]
          world_declining, Raise EOFError)).
Proof.
  apply (X4_confirm_move_answers world_declining "/home/u/foo"
           "/mnt/photos/foo" ["home"; "u"; "foo"] ["mnt"; "photos"]
           (File ["f"%byte]) (dir [])); reflexivity.
Defined.

End ExtraSkips.

(** ** The other branches of the second loops, on canonical paths *)

Module EdgeFacts.
Import PyStr Fs FsAux FsFacts Program ProgramAux ProgramFacts TaskFacts.
Import TreeAux TreeFacts PathFacts RelocateFacts PassAux StepFacts PassFacts.
Import ConfirmFacts SkipFacts ExtraAux.

#[local] Opaque resolve.

Lemma not_prefix_snoc (p : list string) (c : string) :
  ¬ (p ++ [c]) `prefix_of` p.
Proof. intros H%prefix_length. rewrite length_app in H. simpl in H. lia. Qed.

(** *** [os.path.split] of a canonical path string *)

Lemma basename_path_of (cs : list string) (c : string) :
  Forall (λ c, is_name c = true) (cs ++ [c]) →
  PosixPath.basename (path_of (cs ++ [c])) = c.
Proof.
  intros [Hcs Hc]%Forall_app. rewrite Forall_singleton in Hc.
  apply is_name_inv in Hc as (_ & Hc & _).
  unfold PosixPath.basename, PosixPath.split.
  rewrite path_of_app. cbn [path_of]. rewrite PyStrFacts.app_nil_r.
  by rewrite split_last_sep_name.
Qed.

Lemma split_path_of (cs : list string) (c : string) :
  Forall (λ c, is_name c = true) (cs ++ [c]) →
  PosixPath.split (path_of (cs ++ [c]))
  = (match cs with [] => "/" | _ => path_of cs end, c).
Proof.
  intros Hn. rewrite <-(dirname_path_of cs c Hn).
  rewrite <-(basename_path_of cs c Hn) at 3.
  unfold PosixPath.dirname, PosixPath.basename.
  by destruct (PosixPath.split _).
Qed.

Lemma all_sep_path_of (cs : list string) :
  Forall (λ c, is_name c = true) cs → cs ≠ [] →
  PosixPath.all_sep (path_of cs) = false.
Proof.
  intros Hn Hcs. destruct cs as [|c0 cs]; [done|].
  apply Forall_cons in Hn as [Hc0 _].
  apply is_name_inv in Hc0 as (Hne & Hc0 & _).
  cbn [path_of]. destruct c0 as [|a c0]; [done|].
  apply contains_sep_cons in Hc0 as [Ha%Ascii.eqb_neq _].
  rewrite !PyStrFacts.app_cons, PyStrFacts.app_nil_l.
  cbn [PosixPath.all_sep]. by rewrite Ha, andb_false_r.
Qed.

Lemma rstrip_path_of (cs : list string) :
  Forall (λ c, is_name c = true) cs → rstrip "/" (path_of cs) = path_of cs.
Proof. intros Hn. apply PyStrFacts.rstrip_id. by apply ends_in_path_of. Qed.

(** *** Creating what is not there *)

Section Create.
Context (w : world) (dp : list string) (dc : string).
Hypothesis Hn : Forall (λ c, is_name c = true) (dp ++ [dc]).
Hypothesis Hpar : is_dir_at (root w) dp.
Hypothesis Hnone : tlookup (dp ++ [dc]) (root w) = None.

Lemma resolve_new (fl : bool) :
  resolve w fl (path_of (dp ++ [dc])) = Absent dp dc.
Proof. by apply resolve_absent. Qed.

Lemma open_append_close_new :
  open_append_close (path_of (dp ++ [dc])) w
  = (set_root (tinsert (dp ++ [dc]) (File []) (root w)) w, Ok tt).
Proof. unfold open_append_close. by rewrite resolve_new. Qed.

Lemma os_mkdir_new :
  os_mkdir (path_of (dp ++ [dc])) w
  = (set_root (tinsert (dp ++ [dc]) (Dir ∅) (root w)) w, Ok tt).
Proof.
  unfold os_mkdir. rewrite all_sep_path_of by (done || by destruct dp).
  by rewrite rstrip_path_of, resolve_new.
Qed.

Lemma os_makedirs_new :
  os_makedirs (path_of (dp ++ [dc])) w
  = (set_root (tinsert (dp ++ [dc]) (Dir ∅) (root w)) w, Ok tt).
Proof.
  destruct Hpar as [ch Hch].
  assert (resolve w true (PosixPath.dirname (path_of (dp ++ [dc])))
          = Found dp (Dir ch)) as Hrp.
  { rewrite <-(removelast_last dp dc) at 2.
    apply resolve_dirname; [done|by destruct dp|].
    by rewrite removelast_last. }
  rewrite dirname_path_of in Hrp by done.
  pose proof Hn as [_ Hc]%Forall_app. rewrite Forall_singleton in Hc.
  apply is_name_inv in Hc as (Hc0 & _).
  unfold os_makedirs, os_path_isdir. unfold bind at 1. unfold gets at 1.
  rewrite (path_isdir_absent _ _ _ _ (resolve_new true)).
  generalize (String.length (path_of (dp ++ [dc]))). intros fuel.
  assert (makedirs_from fuel (path_of (dp ++ [dc])) w
          = try_except (os_mkdir (path_of (dp ++ [dc]))) is_OSError
              (bind (os_path_isdir (path_of (dp ++ [dc])))
                 (λ d, if d then ret tt else raise FileExistsError)) w) as ->.
  { assert (String.eqb (match dp with [] => "/" | _ => path_of dp end) ""
            = false) as Hhead by by destruct dp.
    apply String.eqb_neq in Hc0.
    destruct fuel; cbn [makedirs_from]; rewrite split_path_of by done;
      rewrite Hc0; cbv beta iota; rewrite Hc0, Hhead; cbn [negb andb];
      unfold bind at 1; unfold bind at 1; unfold os_path_exists, gets;
      by rewrite (path_exists_found _ _ _ _ Hrp). }
  unfold try_except. by rewrite os_mkdir_new.
Qed.

End Create.

(** *** The addition of a task whose [src] is not there *)

Lemma add_task_absent (w : world) (s d : list string) (is_dir : bool) :
  Forall (λ c, is_name c = true) s → Forall (λ c, is_name c = true) d →
  indep s d →
  tlookup s (root w) = None → is_dir_at (root w) (removelast s) →
  tlookup d (root w) = None → is_dir_at (root w) (removelast d) →
  add_task (path_of s, path_of d, is_dir) w
  = (say [LinkCreated (path_of s) (path_of d)]
       (set_root (tinsert s (Link (path_of d))
                    (tinsert d (empty_entry is_dir) (root w))) w), Ok tt).
Proof.
  intros Hs Hd Hi Hsn Hsp Hdn Hdp.
  assert (s ≠ []) as Hs0 by by eapply indep_ne_nil_l.
  assert (d ≠ []) as Hd0 by by eapply indep_ne_nil_r.
  assert (¬ d `prefix_of` removelast s) as Hds
    by by apply indep_removelast, indep_sym.
  destruct (exists_last Hd0) as (dp & dc & ->).
  destruct (exists_last Hs0) as (sp & sc & ->).
  rewrite removelast_last in Hsp, Hdp, Hds.
  assert (resolve w false (path_of (sp ++ [sc])) = Absent sp sc) as Hrl
    by by apply resolve_absent.
  assert (resolve w true (path_of (sp ++ [sc])) = Absent sp sc) as Hrs
    by by apply resolve_absent.
  unfold add_task, os_path_islink, os_path_exists. mnorm.
  unfold path_islink. rewrite Hrl. mnorm.
  rewrite (path_exists_absent _ _ _ _ Hrs). mnorm.
  set (r1 := tinsert (dp ++ [dc]) (empty_entry is_dir) (root w)).
  assert ((if is_dir then os_makedirs (path_of (dp ++ [dc]))
           else open_append_close (path_of (dp ++ [dc]))) w
          = (set_root r1 w, Ok tt)) as Hcreate.
  { unfold r1. destruct is_dir;
      [by apply os_makedirs_new|by apply open_append_close_new]. }
  erewrite bind_ok; [|exact Hcreate]. mnorm.
  assert (resolve (set_root r1 w) false (path_of (sp ++ [sc]))
          = Absent sp sc) as Hrs1.
  { apply resolve_absent; [done| |]; cbn [root set_root]; unfold r1;
      rewrite tinsert_tupdate by done.
    - by apply is_dir_at_tupdate.
    - by rewrite tlookup_tupdate_indep. }
  erewrite bind_ok; [|exact (os_symlink_absent _ _ sp sc _ Hrs1)].
  by rewrite bind_print_end.
Qed.

(** *** The addition of a file whose backing name is taken by a file *)

Lemma shutil_move_onto_file (w : world) (src dst : string)
    (s d : list string) (b b' : list byte) :
  resolve w false src = Found s (File b) →
  (∀ fl, resolve w fl dst = Found d (File b')) →
  indep s d →
  shutil_move src dst w = (move_node s d (File b) w, Ok tt).
Proof.
  intros Hs Hd [Hsd Hds]. unfold shutil_move, os_path_isdir.
  unfold bind at 1. unfold gets at 1.
  rewrite (path_isdir_found _ _ _ _ (Hd true)). cbn [is_dir_node].
  unfold os_rename. rewrite Hs, (Hd false).
  rewrite bool_decide_eq_false_2 by (by intros ->).
  by rewrite bool_decide_eq_false_2.
Qed.

Lemma add_task_onto_file (w : world) (s d : list string) (is_dir : bool)
    (b b' : list byte) :
  Forall (λ c, is_name c = true) s → Forall (λ c, is_name c = true) d →
  indep s d →
  tlookup s (root w) = Some (File b) → tlookup d (root w) = Some (File b') →
  Forall (λ l, accepting l = true) (stdin w) → stdin w ≠ [] →
  ∃ k msgs, k ≤ 1
    ∧ add_task (path_of s, path_of d, is_dir) w
      = (after (link_in s d (root w)) k
           (ErrorDstExists (path_of d) (path_of s)
              :: msgs ++ [LinkCreated (path_of s) (path_of d)]) w, Ok tt).
Proof.
  intros Hs Hd Hi Hx Hy Hacc Hin.
  assert (s ≠ []) as Hs0 by by eapply indep_ne_nil_l.
  assert (d ≠ []) as Hd0 by by eapply indep_ne_nil_r.
  assert (∀ w' fl, root w' = root w →
            resolve w' fl (path_of s) = Found s (File b)) as Hrs
    by (intros w' fl Hw'; apply resolve_found; rewrite ?Hw'; auto).
  assert (∀ w' fl, root w' = root w →
            resolve w' fl (path_of d) = Found d (File b')) as Hrd
    by (intros w' fl Hw'; apply resolve_found; rewrite ?Hw'; auto).
  assert (is_dir_at (root w) (removelast s)) as Hspar
    by by eapply tlookup_parent.
  assert (is_dir_at (root w) (removelast d)) as [ch Hdpar]
    by by eapply tlookup_parent.
  assert (¬ d `prefix_of` removelast s) as Hds
    by by apply indep_removelast, indep_sym.
  rewrite (add_task_plain w _ _ is_dir s (File b));
    [|by rewrite (path_islink_found _ _ _ _ (Hrs w false eq_refl))
     |exact (Hrs w true eq_refl)].
  rewrite (path_exists_found _ _ _ _ (Hrd w true eq_refl)).
  set (w0 := say [ErrorDstExists (path_of d) (path_of s)] w).
  assert (resolve w0 true (PosixPath.dirname (path_of d))
          = Found (removelast d) (Dir ch)) as Hrp
    by by apply resolve_dirname.
  destruct (confirm_move_accepted w0 (path_of s) (path_of d) _ _ _ _
              (Hrs w0 true eq_refl) Hrp Hacc Hin) as (k & msgs & Hk & Hconfirm).
  exists k, msgs. split; [done|].
  erewrite bind_ok; [|exact Hconfirm]. cbn [negb]. mnorm.
  set (w1 := after (root w0) k msgs w0).
  erewrite bind_ok;
    [|apply (shutil_move_onto_file w1 _ _ s d b b' (Hrs w1 false eq_refl));
      [intros fl; exact (Hrd w1 fl eq_refl)|exact Hi]].
  mnorm. unfold move_node.
  set (r2 := tinsert d (File b) (tdelete s (root w1))).
  destruct (exists_last Hs0) as (sp & sc & Hseq).
  assert (resolve (set_root r2 w1) false (path_of s) = Absent sp sc) as Hrs2.
  { subst s. rewrite removelast_last in Hspar, Hds.
    apply resolve_absent; [done| |]; cbn [root set_root]; unfold r2;
      rewrite tinsert_tupdate, tdelete_tupdate by done.
    - apply is_dir_at_tupdate; [done|].
      apply is_dir_at_tupdate; [apply not_prefix_snoc|done].
    - rewrite tlookup_tupdate_indep by done.
      rewrite tlookup_tupdate_eq; [done..|].
      by rewrite removelast_last. }
  erewrite bind_ok; [|exact (os_symlink_absent _ _ sp sc _ Hrs2)].
  rewrite bind_print_end. unfold r2, w1, w0. rewrite <-Hseq.
  unfold link_in. cbn [root after say]. rewrite Hx. clear.
  destruct w. unfold after, say, set_root.
  cbn [root cwd mounts stdin stdout]. by rewrite <-!List.app_assoc.
Qed.

(** *** The removal of a linked task whose backing entry is not moved *)

Section Unlink.
Context (w : world) (s d : list string) (is_dir : bool).
Hypothesis Hs : Forall (λ c, is_name c = true) s.
Hypothesis Hd : Forall (λ c, is_name c = true) d.
Hypothesis Hi : indep s d.
Hypothesis Hl : tlookup s (root w) = Some (Link (path_of d)).

Lemma remove_task_unlinks :
  remove_task (path_of s, path_of d, is_dir) w
  = (de ← os_path_exists (path_of d);
     go ← (if (de : bool) then
              ok ← confirm_move (path_of d) (path_of s);
              if negb ok then
                print (SkipMoveBack (path_of d) (path_of s));; ret false
              else
                os_makedirs (PosixPath.dirname (path_of s));;
                shutil_move (path_of d) (path_of s);;
                ret true
            else ret true);
     if (go : bool) then
       dd ← os_path_isdir (path_of d);
       if (dd : bool) then
         names ← os_listdir (path_of d);
         match names with
         | [] => os_rmdir (path_of d);; print (StoreDirRemoved (path_of d))
         | _ => ret tt
         end
       else ret tt
     else ret tt)
      (say [LinkRemoved (path_of s) (path_of d)]
         (set_root (tdelete s (root w)) w)).
Proof.
  assert (resolve w false (path_of s) = Found s (Link (path_of d))) as Hrl.
  { apply resolve_found; auto. by eapply indep_ne_nil_l. }
  unfold remove_task, os_path_islink. mnorm.
  rewrite (path_islink_found w _ _ _ Hrl). cbn [is_link_node]. mnorm.
  erewrite bind_ok; [|exact (os_readlink_link _ _ _ _ Hrl)]. mnorm.
  rewrite String.eqb_refl.
  erewrite bind_ok; [|exact (os_remove_found w _ _ _ Hrl eq_refl)].
  by mnorm.
Qed.

Lemma remove_task_backing_gone :
  tlookup d (root w) = None → is_dir_at (root w) (removelast d) →
  remove_task (path_of s, path_of d, is_dir) w
  = (say [LinkRemoved (path_of s) (path_of d)]
       (set_root (tdelete s (root w)) w), Ok tt).
Proof.
  intros Hn Hp. rewrite remove_task_unlinks.
  set (w1 := say _ _).
  assert (d ≠ []) as Hd0 by by eapply indep_ne_nil_r.
  destruct (exists_last Hd0) as (dp & dc & Hdeq).
  assert (resolve w1 true (path_of d) = Absent dp dc) as Hrd.
  { subst d. rewrite removelast_last in Hp.
    apply resolve_absent; [done| |]; cbn [root set_root say w1];
      rewrite tdelete_tupdate.
    - apply is_dir_at_tupdate; [|done].
      apply indep_removelast in Hi. by rewrite removelast_last in Hi.
    - rewrite tlookup_tupdate_indep; [done|by apply indep_sym]. }
  unfold os_path_exists, os_path_isdir. mnorm.
  rewrite (path_exists_absent _ _ _ _ Hrd). mnorm.
  by rewrite (path_isdir_absent _ _ _ _ Hrd).
Qed.

Lemma remove_task_move_back_declined (x : node) (line : string)
    (rest : list string) :
  tlookup d (root w) = Some x → is_link_node x = false →
  dev_of (mounts w) d ≠ dev_of (mounts w) (removelast s) →
  stdin w = line :: rest → accepting line = false →
  remove_task (path_of s, path_of d, is_dir) w
  = (World (tdelete s (root w)) (cwd w) (mounts w) rest
       (stdout w ++ [LinkRemoved (path_of s) (path_of d);
                     PromptCrossDevice (path_of d) (path_of s);
                     SkipMoveBack (path_of d) (path_of s)]), Ok tt).
Proof.
  intros Hx Hnl Hdev Hin Hno. rewrite remove_task_unlinks.
  set (w1 := say _ _).
  assert (s ≠ []) as Hs0 by by eapply indep_ne_nil_l.
  assert (d ≠ []) as Hd0 by by eapply indep_ne_nil_r.
  assert (is_dir_at (root w) (removelast s)) as Hsp
    by by eapply tlookup_parent.
  assert (resolve w1 true (path_of d) = Found d x) as Hrd.
  { apply resolve_found; [done..| |by left]. cbn [root set_root say w1].
    rewrite tdelete_tupdate, tlookup_tupdate_indep; [done|by apply indep_sym]. }
  assert (is_dir_at (root w1) (removelast s)) as [ch Hsp1].
  { cbn [root set_root say w1]. rewrite tdelete_tupdate.
    apply is_dir_at_tupdate; [by apply not_prefix_removelast|done]. }
  assert (resolve w1 true (PosixPath.dirname (path_of s))
          = Found (removelast s) (Dir ch)) as Hrp
    by by apply resolve_dirname.
  unfold os_path_exists. mnorm.
  rewrite (path_exists_found _ _ _ _ Hrd). mnorm.
  erewrite bind_ok;
    [|exact (confirm_move_answer w1 _ _ _ _ _ _ Hrd Hrp line rest Hdev Hin)].
  rewrite Hno. cbn [negb]. mnorm. unfold ret, say, w1.
  cbn [root cwd mounts stdin stdout set_root say].
  by rewrite <-!List.app_assoc.
Qed.

End Unlink.

End EdgeFacts.

(** ** The other branches of the second loops *)

Section ExtraBranches.
Import PyStr Fs FsAux FsFacts Program ProgramAux ProgramFacts TaskFacts.
Import TreeAux TreeFacts PathFacts RelocateFacts PassAux StepFacts PassFacts.
Import ConfirmFacts SkipFacts ExtraAux EdgeFacts Scenario ExtraScenario.

(** X5: a backing name that is taken by a file does not stop the addition
    of a file.  The task prints the "already exists" line and goes on all
    the same: after the confirmation the file at [src] replaces the file at
    [dst], whose old content is lost, and [src] becomes the symlink. *)
Theorem X5_taken_backing_file_is_overwritten (w : world) (s d : list string)
    (is_dir : bool) (b b' : list byte) :
  is_path s = true → is_path d = true → indepb s d = true →
  tlookup s (root w) = Some (File b) → tlookup d (root w) = Some (File b') →
  forallb accepting (stdin w) = true → 1 ≤ length (stdin w) →
  ∃ k msgs r',
    k ≤ 1
    ∧ add_task (path_of s, path_of d, is_dir) w
      = (after r' k
           (ErrorDstExists (path_of d) (path_of s)
              :: msgs ++ [LinkCreated (path_of s) (path_of d)]) w, Ok tt)
    ∧ tlookup s r' = Some (Link (path_of d))
    ∧ tlookup d r' = Some (File b).
Proof.
  intros [Hs _]%is_path_spec [Hd _]%is_path_spec Hi%indepb_true Hx Hy
    Hacc%forallb_Forall Hlen.
  destruct (add_task_onto_file w s d is_dir b b') as (k & msgs & Hk & Hrun);
    [done..|by eapply stdin_not_nil|].
  exists k, msgs, (link_in s d (root w)). split_and!; [done..| |].
  - by eapply tlookup_link_in_src.
  - eapply tlookup_link_in_dst; [done..|]. by eapply tlookup_parent, Hy;
      eapply indep_ne_nil_r.
Qed.

Lemma X5_taken_backing_file_is_overwritten_witness :
  ∃ k msgs r',
    k ≤ 1
    ∧ add_task ("/home/u/foo", "/mnt/photos/foo", false) world_taken
      = (after r' k
           (ErrorDstExists "/mnt/photos/foo" "/home/u/foo"
              :: msgs ++ [LinkCreated "/home/u/foo" "/mnt/photos/foo"])
           world_taken, Ok tt)
    ∧ tlookup ["home"; "u"; "foo"] r' = Some (Link "/mnt/photos/foo")
    ∧ tlookup ["mnt"; "photos"; "foo"] r' = Some (File ["f"%byte]).
Proof.
  apply (X5_taken_backing_file_is_overwritten world_taken
           ["home"; "u"; "foo"] ["mnt"; "photos"; "foo"] false
           ["f"%byte] ["o"%byte; "l"%byte; "d"%byte]);
    [reflexivity..|cbn; lia].
Defined.

(** X6: a declared path that is not there is created in the storage.  With
    nothing at [src] and nothing at [dst], and the directories that hold
    them there, the task creates an empty directory (declared with a
    trailing separator) or an empty file at [dst], makes [src] the symlink
    to it and prints the "link created" line; no question is asked. *)
Theorem X6_absent_path_is_created_in_the_storage (w : world)
    (s d : list string) (is_dir : bool) :
  is_path s = true → is_path d = true → indepb s d = true →
  tlookup s (root w) = None → is_dir_atb (root w) (removelast s) = true →
  tlookup d (root w) = None → is_dir_atb (root w) (removelast d) = true →
  add_task (path_of s, path_of d, is_dir) w
  = (say [LinkCreated (path_of s) (path_of d)]
       (set_root (tinsert s (Link (path_of d))
                    (tinsert d (empty_entry is_dir) (root w))) w), Ok tt).
Proof.
  intros [Hs _]%is_path_spec [Hd _]%is_path_spec Hi%indepb_true
    Hsn Hsp%is_dir_atb_spec Hdn Hdp%is_dir_atb_spec.
  by apply add_task_absent.
Qed.

Lemma X6_absent_path_is_created_in_the_storage_witness :
  add_task ("/home/u/new", "/mnt/photos/new", true) world0
  = (say [LinkCreated "/home/u/new" "/mnt/photos/new"]
       (set_root (tinsert ["home"; "u"; "new"] (Link "/mnt/photos/new")
                    (tinsert ["mnt"; "photos"; "new"] (empty_entry true)
                       (root world0))) world0), Ok tt).
Proof.
  apply (X6_absent_path_is_created_in_the_storage world0
           ["home"; "u"; "new"] ["mnt"; "photos"; "new"] true);
    reflexivity.
Defined.

(** X7: the removal of a link whose backing entry is gone.  When [src] is
    the symlink to [dst] and there is nothing at [dst] (in a storage
    directory that is there), the task removes the symlink, prints the
    "link removed" line and is done: nothing is moved to [src], no question
    is asked. *)
Theorem X7_unlink_when_backing_entry_is_gone (w : world) (s d : list string)
    (is_dir : bool) :
  is_path s = true → is_path d = true → indepb s d = true →
  tlookup s (root w) = Some (Link (path_of d)) →
  tlookup d (root w) = None → is_dir_atb (root w) (removelast d) = true →
  remove_task (path_of s, path_of d, is_dir) w
  = (say [LinkRemoved (path_of s) (path_of d)]
       (set_root (tdelete s (root w)) w), Ok tt).
Proof.
  intros [Hs _]%is_path_spec [Hd _]%is_path_spec Hi%indepb_true
    Hl Hdn Hdp%is_dir_atb_spec.
  by apply remove_task_backing_gone.
Qed.

Lemma X7_unlink_when_backing_entry_is_gone_witness :
  remove_task ("/home/u/foo", "/mnt/photos/foo", false) world_backing_gone
  = (say [LinkRemoved "/home/u/foo" "/mnt/photos/foo"]
       (set_root (tdelete ["home"; "u"; "foo"] (root world_backing_gone))
          world_backing_gone), Ok tt).
Proof.
  apply (X7_unlink_when_backing_entry_is_gone world_backing_gone
           ["home"; "u"; "foo"] ["mnt"; "photos"; "foo"] false);
    reflexivity.
Defined.

(** X8: declining the move back does not keep the link.  When [src] is the
    symlink to [dst], the entry at [dst] is on another device than the
    directory of [src] and the line read is not a yes, the symlink is
    removed all the same (it is removed before the question is asked); the
    entry stays at [dst] and nothing is left at [src]. *)
Theorem X8_declined_move_back_still_unlinks (w : world) (s d : list string)
    (is_dir : bool) (x : node) (line : string) (rest : list string) :
  is_path s = true → is_path d = true → indepb s d = true →
  tlookup s (root w) = Some (Link (path_of d)) →
  tlookup d (root w) = Some x → is_link_node x = false →
  dev_of (mounts w) d ≠ dev_of (mounts w) (removelast s) →
  stdin w = line :: rest → accepting line = false →
  remove_task (path_of s, path_of d, is_dir) w
  = (World (tdelete s (root w)) (cwd w) (mounts w) rest
       (stdout w ++ [LinkRemoved (path_of s) (path_of d);
                     PromptCrossDevice (path_of d) (path_of s);
                     SkipMoveBack (path_of d) (path_of s)]), Ok tt)
  ∧ tlookup s (tdelete s (root w)) = None
  ∧ tlookup d (tdelete s (root w)) = Some x.
Proof.
  intros [Hs Hs0]%is_path_spec [Hd _]%is_path_spec Hi%indepb_true
    Hl Hx Hnl Hdev Hin Hno.
  split_and!.
  - by eapply remove_task_move_back_declined.
  - rewrite tdelete_tupdate, tlookup_tupdate_eq; [done..|].
    by eapply tlookup_parent.
  - rewrite tdelete_tupdate, tlookup_tupdate_indep; [done|by apply indep_sym].
Qed.

Lemma X8_declined_move_back_still_unlinks_witness :
  remove_task ("/home/u/foo", "/mnt/photos/foo", false) world_linked_declining
  = (World (tdelete ["home"; "u"; "foo"] (root world_linked_declining))
       (cwd world_linked_declining) (mounts world_linked_declining) []
       (stdout world_linked_declining
        ++ [LinkRemoved "/home/u/foo" "/mnt/photos/foo";
            PromptCrossDevice "/mnt/photos/foo" "/home/u/foo";
            SkipMoveBack "/mnt/photos/foo" "/home/u/foo"]), Ok tt)
  ∧ tlookup ["home"; "u"; "foo"]
      (tdelete ["home"; "u"; "foo"] (root world_linked_declining)) = None
  ∧ tlookup ["mnt"; "photos"; "foo"]
      (tdelete ["home"; "u"; "foo"] (root world_linked_declining))
    = Some (File ["f"%byte]).
Proof.
  apply (X8_declined_move_back_still_unlinks world_linked_declining
           ["home"; "u"; "foo"] ["mnt"; "photos"; "foo"] false
           (File ["f"%byte]) "no" []);
    [reflexivity..|by vm_compute|reflexivity|reflexivity].
Defined.

End ExtraBranches.

(** ** The first loops and the derivation of the paths, once more *)

Module CollectFacts.
Import PyStr StrAux PyStrFacts Fs FsAux FsFacts Program ProgramAux ProgramFacts.
Import TaskFacts TreeAux TreeFacts PathFacts RelocateFacts PassAux StepFacts.
Import PassFacts ExtraAux.

(** *** Separators in a backing name *)

Lemma contains_sep_eq (a : ascii) (s : string) :
  contains "/" (String a s) = Ascii.eqb a "/" || contains "/" s.
Proof. cbn [contains startswith]. by destruct (Ascii.eqb "/" a) eqn:H;
  rewrite Ascii.eqb_sym in H; rewrite H. Qed.

Lemma contains_sep_app_false (s t : string) :
  contains "/" s = false → contains "/" t = false →
  contains "/" (s +:+ t) = false.
Proof.
  intros Hs Ht. induction s as [|a s IH]; [done|].
  rewrite app_cons, contains_sep_eq in *.
  apply orb_false_elim in Hs as [-> Hs]. by rewrite IH.
Qed.

Lemma contains_sep_subst (s : string) :
  contains "/" (subst_char "/" "-" s) = false.
Proof.
  induction s as [|a s IH]; [done|]. cbn [subst_char].
  apply contains_sep_app_false; [|done].
  case_decide as Ha; [done|]. rewrite contains_sep_eq.
  apply Ascii.eqb_neq in Ha. by rewrite Ha.
Qed.

Lemma contains_sep_rstrip (chars s : string) :
  contains "/" s = false → contains "/" (rstrip chars s) = false.
Proof.
  induction s as [|a s IH]; [done|].
  rewrite contains_sep_eq. intros [Ha Hs]%orb_false_elim.
  cbn [rstrip]. specialize (IH Hs).
  destruct (rstrip chars s) as [|b r].
  - destruct (mem a chars); [done|]. by rewrite contains_sep_eq, Ha.
  - by rewrite contains_sep_eq, Ha, IH.
Qed.

Lemma contains_sep_safe_name (HOME p : string) :
  contains "/" (safe_name HOME p) = false.
Proof.
  unfold safe_name, normalize_path. apply contains_sep_rstrip.
  rewrite (replace_char "/" "-"). apply contains_sep_subst.
Qed.

(** *** Loops that append *)


Section Collect.
Context (HOME : string) (skipped : string → bool)
  (base_path_of : string → string) (cfg : config).



(** No declaration is selected: the first loop gives no task. *)
Lemma declared_tasks_nil :
  forallb skipped (declarations cfg) = true →
  declared_tasks HOME skipped base_path_of cfg = [].
Proof.
  intros Hsk. rewrite forallb_Forall, Forall_forall in Hsk.
  destruct (declared_tasks HOME skipped base_path_of cfg) as [|t l] eqn:Ht;
    [done|].
  assert (t ∈ declared_tasks HOME skipped base_path_of cfg) as Hin
    by (rewrite Ht; by left).
  unfold declared_tasks in Hin.
  apply list_elem_of_bind in Hin as ([sid bd] & Hin & Hsid).
  destruct bd as [bd|]; [|by apply elem_of_nil in Hin].
  apply list_elem_of_bind in Hin as ([raw v] & Hin & Hraw).
  rewrite Hsk in Hin; [by apply elem_of_nil in Hin|].
  unfold declarations. apply list_elem_of_bind. exists (sid, Some bd).
  split; [|done]. apply list_elem_of_fmap. by exists (raw, v).
Qed.

End Collect.

(** *** What the addition pass leaves at the paths *)

Lemma tlookup_link_all_frame (ps : list placed) (q : list string) (r : node) :
  tasks_indep ps = true →
  Forall (λ p, indep q (placed_src p) ∧ indep q (placed_dst p)) ps →
  tlookup q (link_all ps r) = tlookup q r.
Proof.
  revert r. induction ps as [|p ps IH]; intros r Hi Hq; [done|].
  apply tasks_indep_cons in Hi as (Hp & _ & Hi).
  apply Forall_cons in Hq as [[Hqs Hqd] Hq].
  rewrite link_all_cons, IH by done. by apply tlookup_link_in_indep.
Qed.

Lemma tlookup_link_all_dst (ps : list placed) (p : placed) (r : node) :
  tasks_indep ps = true →
  Forall (λ p, relocatable r p = true) ps → p ∈ ps →
  tlookup (placed_dst p) (link_all ps r) = tlookup (placed_src p) r.
Proof.
  revert r. induction ps as [|p0 ps IH]; intros r Hi Hr Hin;
    [by apply elem_of_nil in Hin|].
  apply tasks_indep_cons in Hi as (Hp0 & Ha & Hi).
  apply Forall_cons in Hr as [Hr0 Hr]. rewrite link_all_cons.
  assert (Forall (λ q, relocatable
                        (link_in (placed_src p0) (placed_dst p0) r) q = true)
            ps) as Hr'.
  { rewrite Forall_forall in Hr, Ha. apply Forall_forall. intros q Hq.
    apply relocatable_link_in; auto. }
  apply elem_of_cons in Hin as [->|Hin].
  - rewrite tlookup_link_all_frame; [|done|].
    + apply relocatable_spec in Hr0 as (_ & _ & (x & Hx & _) & _ & Hd).
      rewrite Hx. by eapply tlookup_link_in_dst.
    + eapply Forall_impl; [exact Ha|]. intros q Hq.
      by apply apartb_spec in Hq as (_ & _ & ? & ?).
  - rewrite IH by done.
    rewrite Forall_forall in Ha.
    pose proof (Ha _ Hin) as Hq. apply apartb_spec in Hq as (? & ? & ? & ?).
    apply tlookup_link_in_indep; [done|by apply indep_sym..].
Qed.

End CollectFacts.

(** ** The passes as a whole, and the derived paths *)

Section ExtraPasses.
Import PyStr StrAux PyStrFacts Fs FsAux FsFacts Program ProgramAux ProgramFacts.
Import TaskFacts TreeAux TreeFacts PathFacts RelocateFacts PassAux StepFacts.
Import PassFacts ExtraAux CollectFacts Scenario ExtraScenario.

(** X9: the addition pass moves the entries as they are and touches nothing
    else.  Under the hypotheses of the round trip, after the pass every
    backing path holds exactly the entry that was at the home path (a
    directory with everything below it), and a path that is neither above
    nor below a declared home path or backing path holds what it held. *)
Theorem X9_additions_move_entries_unchanged (HOME : string) (cfg : config)
    (w : world) (cts : list placed) :
  config_ok cfg = true →
  declared_additions HOME cfg = to_task <$> cts →
  tasks_indep cts = true →
  forallb (relocatable (root w)) cts = true →
  forallb accepting (stdin w) = true →
  length cts ≤ length (stdin w) →
  ∃ w1,
    apply_additions HOME cfg w = (w1, Ok tt)
    ∧ Forall (λ p, tlookup (placed_dst p) (root w1)
                   = tlookup (placed_src p) (root w)) cts
    ∧ ∀ q, forallb (λ p, indepb q (placed_src p) && indepb q (placed_dst p))
             cts = true →
           tlookup q (root w1) = tlookup q (root w).
Proof.
  intros Hcfg Hadd Hi Hr%forallb_Forall Hacc%forallb_Forall Hlen.
  destruct (additions_pass HOME cfg w cts) as (k & msgs & Hk & Hrun);
    [done..|].
  eexists. split; [exact Hrun|]. cbn [root after]. split.
  - apply Forall_forall. intros p Hp. by apply tlookup_link_all_dst.
  - intros q Hq. apply tlookup_link_all_frame; [done|].
    rewrite forallb_Forall in Hq. eapply Forall_impl; [exact Hq|].
    intros p [??]%andb_true_iff. by rewrite <-!indepb_true.
Qed.

Lemma X9_additions_move_entries_unchanged_witness :
  ∃ w1,
    apply_additions "/home/u" cfg_two world_accepting = (w1, Ok tt)
    ∧ Forall (λ p, tlookup (placed_dst p) (root w1)
                   = tlookup (placed_src p) (root world_accepting)) placed_two
    ∧ ∀ q, forallb (λ p, indepb q (placed_src p) && indepb q (placed_dst p))
             placed_two = true →
           tlookup q (root w1) = tlookup q (root world_accepting).
Proof.
  apply (X9_additions_move_entries_unchanged "/home/u" cfg_two
           world_accepting placed_two); [by vm_compute..|cbn; lia].
Defined.

(** X10: a configuration without removal markers has no removals.  On a
    well-formed configuration in which no declaration starts with [-], the
    removal pass does nothing at all, in the world the addition pass leaves
    as in any other, so [apply] is the addition pass. *)
Theorem X10_no_removal_marker_no_removal (HOME : string) (cfg : config)
    (w : world) :
  config_ok cfg = true →
  forallb (λ raw, negb (startswith raw "-")) (declarations cfg) = true →
  apply_removals HOME cfg w = (w, Ok tt)
  ∧ apply HOME cfg w = apply_additions HOME cfg w.
Proof.
  intros Hcfg Hno.
  pose proof (declared_tasks_nil HOME _ removal_base_path cfg Hno) as Hnil.
  assert (∀ w', apply_removals HOME cfg w' = (w', Ok tt)) as Hrem.
  { intros w'. unfold apply_removals.
    erewrite bind_ok;
      [|apply (collect_all HOME (λ raw, negb (startswith raw "-"))
                 removal_base_path cfg w' Hcfg);
        rewrite Hnil; by intros t Ht%elem_of_nil].
    by rewrite Hnil. }
  split; [apply Hrem|].
  unfold apply.
  destruct (apply_additions HOME cfg w) as [w1 [[]|e]] eqn:Ha.
  - erewrite bind_ok; [|exact Ha]. apply Hrem.
  - by erewrite bind_raise.
Qed.

Lemma X10_no_removal_marker_no_removal_witness :
  apply_removals "/home/u" cfg_two world_accepting = (world_accepting, Ok tt)
  ∧ apply "/home/u" cfg_two world_accepting
    = apply_additions "/home/u" cfg_two world_accepting.
Proof.
  apply (X10_no_removal_marker_no_removal "/home/u" cfg_two world_accepting);
    reflexivity.
Defined.



(** X12: where the removal pass derives the task of the addition pass.  For
    a raw path that does not start with white space and has the text
    [HOME/] at most once, the declaration with the removal marker in front
    gives the removal pass the [src], [dst] and [is_dir] that the
    declaration without it gives the addition pass. *)
Theorem X12_removal_derives_the_task_of_the_addition (HOME base_dir p : string) :
  lstrip p = p →
  contains "HOME/" (replace_first "HOME/" "" p) = false →
  (src_of HOME (removal_base_path ("-" +:+ p)),
   dst_of HOME base_dir (removal_base_path ("-" +:+ p)),
   endswith ("-" +:+ p) "/")
  = (src_of HOME (addition_base_path p),
     dst_of HOME base_dir (addition_base_path p),
     endswith p "/").
Proof.
  intros Hl Hc. unfold removal_base_path, addition_base_path.
  rewrite app_cons, app_nil_l. cbn [drop]. rewrite Hl, replace_once by done.
  by repeat f_equal.
Qed.

Lemma X12_removal_derives_the_task_of_the_addition_witness :
  (src_of "/home/u" (removal_base_path ("-" +:+ "HOME/Pictures/")),
   dst_of "/home/u" "/mnt/photos" (removal_base_path ("-" +:+ "HOME/Pictures/")),
   endswith ("-" +:+ "HOME/Pictures/") "/")
  = (src_of "/home/u" (addition_base_path "HOME/Pictures/"),
     dst_of "/home/u" "/mnt/photos" (addition_base_path "HOME/Pictures/"),
     endswith "HOME/Pictures/" "/").
Proof.
  apply (X12_removal_derives_the_task_of_the_addition "/home/u" "/mnt/photos"
           "HOME/Pictures/"); reflexivity.
Defined.

(** X13: the backing path is the storage directory and one name.  Whatever
    the home-relative path and the home directory, the safe name holds no
    separator (every one is written as a dash), so [dst] is the base
    directory followed by the safe name, with a separator in between unless
    the base directory is empty or ends in one. *)
Theorem X13_backing_path_is_one_name_in_the_storage (HOME base_dir p : string) :
  contains "/" (safe_name HOME p) = false
  ∧ dst_of HOME base_dir p
    = base_dir
      +:+ (if String.eqb base_dir "" || endswith base_dir "/" then "" else "/")
      +:+ safe_name HOME p.
Proof.
  split; [apply contains_sep_safe_name|].
  unfold dst_of, PosixPath.join.
  pose proof (contains_sep_safe_name HOME p) as Hc.
  destruct (safe_name HOME p) as [|a n] eqn:Hn.
  - cbn [startswith]. by destruct (String.eqb base_dir "" || endswith base_dir "/").
  - rewrite contains_sep_eq in Hc. apply orb_false_elim in Hc as [Ha _].
    cbn [startswith]. rewrite Ascii.eqb_sym, Ha.
    by destruct (String.eqb base_dir "" || endswith base_dir "/").
Qed.

End ExtraPasses.

(** ** The type check, and the round trip of a path that is not there *)

Section ExtraChecks.
Import PyStr StrAux PyStrFacts Fs FsAux FsFacts Program ProgramAux ProgramFacts.
Import TaskFacts TreeAux TreeFacts PathFacts RelocateFacts PassAux StepFacts.
Import PassFacts ExtraAux EdgeFacts CollectFacts Scenario ExtraScenario.

(** X14: the type check looks at what the path leads to.  When [stat]
    finds a node for [src] (through symlinks, if any), the check answers
    [True] without printing if the node is a directory and a directory is
    declared, or a regular file and a file is declared; otherwise it prints
    the warning that names the declared kind and answers [False].  It
    changes nothing else. *)
Theorem X14_type_check_follows_the_path (w : world) (src : string)
    (is_dir : bool) (c : list string) (n : node) :
  resolve w true src = Found c n →
  handle_path_conflict src is_dir w
  = if type_disagrees n is_dir
    then (say [conflict_warning src is_dir] w, Ok false)
    else (w, Ok true).
Proof.
  intros Hr. rewrite handle_path_conflict_eq.
  rewrite (path_exists_found _ _ _ _ Hr), (path_isdir_found _ _ _ _ Hr),
    (path_isfile_found _ _ _ _ Hr).
  unfold type_disagrees, conflict_warning. by destruct is_dir, n.
Qed.

Lemma X14_type_check_follows_the_path_witness :
  handle_path_conflict "/home/u/foo" false world_linked_declining
  = if type_disagrees (File ["f"%byte]) false
    then (say [conflict_warning "/home/u/foo" false] world_linked_declining,
          Ok false)
    else (world_linked_declining, Ok true).
Proof.
  apply (X14_type_check_follows_the_path world_linked_declining
           "/home/u/foo" false ["mnt"; "photos"; "foo"] (File ["f"%byte])).
  reflexivity.
Defined.

(** X15: the round trip of a path that is not there leaves an empty entry.
    With nothing at [src] and nothing at [dst], the addition of the task
    followed by its removal (every answer a yes) completes, and the tree
    after it is the tree before it with an empty directory or an empty file
    at [src]: this is the only trace. *)
Theorem X15_round_trip_of_an_absent_path (w : world) (s d : list string)
    (is_dir : bool) :
  is_path s = true → is_path d = true → indepb s d = true →
  tlookup s (root w) = None → is_dir_atb (root w) (removelast s) = true →
  tlookup d (root w) = None → is_dir_atb (root w) (removelast d) = true →
  forallb accepting (stdin w) = true → 1 ≤ length (stdin w) →
  ∃ w1 w2,
    add_task (path_of s, path_of d, is_dir) w = (w1, Ok tt)
    ∧ remove_task (path_of s, path_of d, is_dir) w1 = (w2, Ok tt)
    ∧ root w2 = tinsert s (empty_entry is_dir) (root w).
Proof.
  intros [Hs Hs0]%is_path_spec [Hd Hd0]%is_path_spec Hi%indepb_true
    Hsn Hsp%is_dir_atb_spec Hdn Hdp%is_dir_atb_spec Hacc%forallb_Forall Hlen.
  set (e := empty_entry is_dir).
  set (r1 := tinsert s (Link (path_of d)) (tinsert d e (root w))).
  set (w1 := say [LinkCreated (path_of s) (path_of d)] (set_root r1 w)).
  assert (r1 = tupdate s (λ _, Some (Link (path_of d)))
                 (tupdate d (λ _, Some e) (root w))) as Hr1
    by (unfold r1; by rewrite !tinsert_tupdate).
  assert (tlookup s r1 = Some (Link (path_of d))) as Hl.
  { rewrite Hr1, tlookup_tupdate_eq; [done..|].
    apply is_dir_at_tupdate; [|done]. by apply indep_removelast, indep_sym. }
  assert (tlookup d r1 = Some e) as He.
  { rewrite Hr1, tlookup_tupdate_indep by by apply indep_sym.
    by rewrite tlookup_tupdate_eq. }
  destruct (remove_task_linked w1 s d is_dir e) as (k & msgs & Hk & Hrun);
    [done|done|done|exact Hl|exact He|by destruct is_dir|exact Hacc
    |by eapply stdin_not_nil|].
  exists w1, (after (unlink_in s d (root w1)) k msgs w1).
  split_and!; [by apply add_task_absent|done|].
  cbn [root after say set_root w1].
  rewrite (unlink_in_eq s d r1 e) by done. rewrite Hr1.
  rewrite (tupdate_commute d s) by by apply indep_sym.
  rewrite !tupdate_compose.
  rewrite (tupdate_id d) by by rewrite Hdn.
  by rewrite tinsert_tupdate.
Qed.

Lemma X15_round_trip_of_an_absent_path_witness :
  ∃ w1 w2,
    add_task ("/home/u/new", "/mnt/photos/new", false) world_accepting
    = (w1, Ok tt)
    ∧ remove_task ("/home/u/new", "/mnt/photos/new", false) w1 = (w2, Ok tt)
    ∧ root w2
      = tinsert ["home"; "u"; "new"] (empty_entry false) (root world_accepting).
Proof.
  apply (X15_round_trip_of_an_absent_path world_accepting
           ["home"; "u"; "new"] ["mnt"; "photos"; "new"] false);
    [reflexivity..|cbn; lia].
Defined.

End ExtraChecks.
Example replace_all_ex :
  PyStr.replace "HOME/" "" "HOME/a/HOME/b" = "a/b".
Proof. reflexivity. Qed.

Example replace_overlap_ex :
  PyStr.replace "HOME/" "" "HOHOME/ME/x" = "HOME/x".
Proof. reflexivity. Qed.

Example replace_first_ex :
  PyStr.replace_first "HOME/" "" "HOME/a/HOME/b" = "a/HOME/b".
Proof. reflexivity. Qed.

Example replace_empty_ex : PyStr.replace "" "-" "abc" = "-a-b-c-".
Proof. reflexivity. Qed.

Example rstrip_ex : PyStr.rstrip "/" "a/b//" = "a/b".
Proof. reflexivity. Qed.

Example strip_lower_ex : PyStr.lower (PyStr.strip "  Y ") = "y".
Proof. reflexivity. Qed.

Example split_last_ex :
  PyStr.split_last_sep "/mnt/a/b" = ("/mnt/a/", "b").
Proof. reflexivity. Qed.

Example split_sep_ex : PyStr.split_sep "/a//b/" = [""; "a"; ""; "b"; ""].
Proof. reflexivity. Qed.
